(** * Location resolution of crisis_intel: gazetteer and tiered resolver

    A shallow embedding of [src/geo/gazetteer.py] and [src/geo/resolve.py].

    - Python [float] is IEEE-754 binary64.  A finite double is an integer
      number of units of 2^-1074 (the smallest subnormal), so every finite
      double is [FFin n] for exactly one [n]; each arithmetic operation is the
      exact result rounded to nearest, ties to even, as IEEE-754 defines it.
      The two zeros are identified: they compare equal in Python and nothing
      in the modelled code tells them apart.
    - Python [str] is a list of Unicode code points.
    - Python values are the ones a decoded JSON document or a
      [csv.DictReader] row can hold.
    - Exceptions are an error monad; the record handed to [resolve_location]
      lives in a heap of dict objects, so that copying and mutation are
      visible. *)

From stdpp Require Import gmap list strings.
From Stdlib Require Import ZArith Lia Ascii.

Set Warnings "-register-all".
Local Open Scope Z_scope.

(** Powers are kept symbolic. *)
Arguments Z.pow : simpl never.

(* ===================================================================== *)
(** * Part I: definitions                                                 *)
(* ===================================================================== *)

(* --------------------------------------------------------------------- *)
(** ** binary64 arithmetic                                                *)
(* --------------------------------------------------------------------- *)

Inductive pyfloat :=
  | FNaN
  | FInf (neg : bool)
  | FFin (n : Z).  (* n times 2^-1074 *)

(** The value 1.0 in units: 2^1074. *)
Definition units : Z := Eval vm_compute in 2 ^ 1074.

(** 2^1024 in units, 2^2098: the first magnitude that is no longer
    finite. *)
Definition huge : Z := Eval vm_compute in 2 ^ 2098.

(** Nearest integer to p/q (q > 0), ties to even. *)
Definition rne_div (p q : Z) : Z :=
  let d := p / q in
  match (2 * (p mod q)) ?= q with
  | Lt => d
  | Eq => if Z.even d then d else d + 1
  | Gt => d + 1
  end.

(** Exponent of the last kept bit: 53 significant bits, never below one
    unit (the subnormal range). *)
Definition rexp (p q : Z) : Z := Z.max 0 (Z.log2 (Z.abs p / q) - 52).

(** p/q units rounded to 53 significant bits, exponent range unbounded. *)
Definition runb (p q : Z) : Z :=
  let k := rexp p q in rne_div p (q * 2 ^ k) * 2 ^ k.

Definition clip (n : Z) : pyfloat :=
  if Z.abs n <? huge then FFin n else FInf (n <? 0).

(** Correct rounding of the rational p/q (in units) to binary64. *)
Definition round_q (p q : Z) : pyfloat := clip (runb p q).

(** A finite value is a double when rounding leaves it alone. *)
Definition fl_valid (x : pyfloat) : Prop :=
  match x with FFin n => round_q n 1 = FFin n | _ => True end.

Definition fl_add (x y : pyfloat) : pyfloat :=
  match x, y with
  | FNaN, _ | _, FNaN => FNaN
  | FInf a, FInf b => if Bool.eqb a b then FInf a else FNaN
  | FInf a, FFin _ => FInf a
  | FFin _, FInf b => FInf b
  | FFin a, FFin b => round_q (a + b) 1
  end.

(** [x / y]; [None] is Python's ZeroDivisionError. *)
Definition fl_div (x y : pyfloat) : option pyfloat :=
  match y with
  | FFin 0 => None
  | FNaN => Some FNaN
  | FInf _ => Some match x with FFin _ => FFin 0 | _ => FNaN end
  | FFin d =>
      Some match x with
           | FNaN => FNaN
           | FInf a => FInf (xorb a (d <? 0))
           | FFin n => round_q (Z.sgn d * n * units) (Z.abs d)
           end
  end.

Definition fl_leb (x y : pyfloat) : bool :=
  match x, y with
  | FNaN, _ | _, FNaN => false
  | FInf true, _ => true
  | _, FInf false => true
  | FInf false, _ => false
  | _, FInf true => false
  | FFin a, FFin b => a <=? b
  end.

Definition fl_ltb (x y : pyfloat) : bool :=
  match x, y with
  | FNaN, _ | _, FNaN => false
  | FInf a, FInf b => a && negb b
  | FInf true, _ => true
  | _, FInf false => true
  | FInf false, _ => false
  | _, FInf true => false
  | FFin a, FFin b => a <? b
  end.

Definition fl_eqb (x y : pyfloat) : bool :=
  match x, y with
  | FInf a, FInf b => Bool.eqb a b
  | FFin a, FFin b => a =? b
  | _, _ => false
  end.

(** [min(a, b)] of Python: [b] when [b < a], else [a]. *)
Definition fl_min (a b : pyfloat) : pyfloat := if fl_ltb b a then b else a.

(** The decimal literal m * 10^e, as the Python parser reads it. *)
Definition fl_lit (m e : Z) : pyfloat :=
  if 0 <=? e then round_q (m * 10 ^ e * units) 1
  else round_q (m * units) (10 ^ (- e)).

(** [float(z)] for an int; [None] is OverflowError. *)
Definition fl_of_int (z : Z) : option pyfloat :=
  match round_q (z * units) 1 with
  | FFin n => Some (FFin n)
  | _ => None
  end.

(* --------------------------------------------------------------------- *)
(** ** Strings, values, exceptions                                        *)
(* --------------------------------------------------------------------- *)

(** A [str] is a list of code points. *)
Abbreviation str := (list N).

(** An ASCII literal as a [str]. *)
Definition u (s : string) : str := N_of_ascii <$> String.list_ascii_of_string s.

Inductive pyval :=
  | VNone
  | VBool (b : bool)
  | VInt (z : Z)
  | VFloat (f : pyfloat)
  | VStr (s : str)
  | VList (l : list pyval)
  | VDict (d : list (str * pyval)).

Inductive exn :=
  | ValueError | TypeError | OverflowError
  | AttributeError | KeyError | ZeroDivisionError.

Inductive result (A : Type) :=
  | Ok (a : A)
  | Raise (e : exn).
Arguments Ok {A} a.
Arguments Raise {A} e.

#[global] Instance result_ret : MRet result := λ A a, Ok a.
#[global] Instance result_bind : MBind result :=
  λ A B f m, match m with Ok a => f a | Raise e => Raise e end.

(** [try: body / except (ValueError, TypeError): handler]. *)
Definition except_value_type (e : exn) : bool :=
  match e with ValueError | TypeError => true | _ => false end.

Definition try_except {A} (body : result A) (handler : result A) : result A :=
  match body with
  | Raise e => if except_value_type e then handler else Raise e
  | ok => ok
  end.

Fixpoint mapM {A B} (f : A → result B) (l : list A) : result (list B) :=
  match l with
  | [] => Ok []
  | x :: r => y ← f x; ys ← mapM f r; Ok (y :: ys)
  end.

Fixpoint foldM {A S} (f : S → A → result S) (l : list A) (s : S) : result S :=
  match l with
  | [] => Ok s
  | x :: r => s' ← f s x; foldM f r s'
  end.

(** What the interpreter supplies and the repository does not: the Unicode
    tables behind [str.isspace], the regex classes, [unicodedata], case
    mapping, and the parsers behind [float(str)] and [int(str)] ([None] is
    ValueError).  [isspace] is the class of both [str.strip] and [\s];
    [isword] is [\w]. *)
Class PyRuntime := {
  isspace : N → bool;
  isword : N → bool;
  combining : N → N;
  nfkd : str → str;
  str_lower : str → str;
  str_upper : str → str;
  float_of_str : str → option pyfloat;
  int_of_str : str → option Z;
}.

Definition truthy (v : pyval) : bool :=
  match v with
  | VNone => false
  | VBool b => b
  | VInt z => negb (z =? 0)
  | VFloat f => negb (fl_eqb f (FFin 0))
  | VStr s => negb (bool_decide (s = []))
  | VList l => negb (bool_decide (l = []))
  | VDict d => match d with [] => false | _ => true end
  end.

Definition is_none (v : pyval) : bool :=
  match v with VNone => true | _ => false end.

Definition py_len (v : pyval) : result Z :=
  match v with
  | VStr s => Ok (Z.of_nat (length s))
  | VList l => Ok (Z.of_nat (length l))
  | VDict d => Ok (Z.of_nat (length d))
  | _ => Raise TypeError
  end.

(** Iteration: a list yields its items, a str its characters, a dict its
    keys. *)
Definition py_iter (v : pyval) : result (list pyval) :=
  match v with
  | VStr s => Ok ((λ c, VStr [c]) <$> s)
  | VList l => Ok l
  | VDict d => Ok ((λ kv, VStr kv.1) <$> d)
  | _ => Raise TypeError
  end.

(** Stripping the characters of a class from both ends. *)
Fixpoint lstrip_with (sp : N → bool) (s : str) : str :=
  match s with
  | c :: r => if sp c then lstrip_with sp r else s
  | [] => []
  end.

Definition strip_with (sp : N → bool) (s : str) : str :=
  reverse (lstrip_with sp (reverse (lstrip_with sp s))).

Section Builtins.
Context `{rt : PyRuntime}.

Definition py_float (v : pyval) : result pyfloat :=
  match v with
  | VFloat f => Ok f
  | VInt z => match fl_of_int z with Some f => Ok f | None => Raise OverflowError end
  | VBool b => Ok (if b then fl_lit 1 0 else fl_lit 0 0)
  | VStr s => match float_of_str s with Some f => Ok f | None => Raise ValueError end
  | VNone | VList _ | VDict _ => Raise TypeError
  end.

Definition py_int (v : pyval) : result Z :=
  match v with
  | VInt z => Ok z
  | VBool b => Ok (if b then 1 else 0)
  | VFloat FNaN => Raise ValueError
  | VFloat (FInf _) => Raise OverflowError
  | VFloat (FFin n) => Ok (Z.quot n units)
  | VStr s => match int_of_str s with Some z => Ok z | None => Raise ValueError end
  | VNone | VList _ | VDict _ => Raise TypeError
  end.

(** [s.strip()] *)
Definition str_strip (s : str) : str := strip_with isspace s.

(** [v.strip()] and [v.upper()]: only a str has the attribute. *)
Definition py_strip (v : pyval) : result str :=
  match v with VStr s => Ok (str_strip s) | _ => Raise AttributeError end.

Definition py_upper (v : pyval) : result str :=
  match v with VStr s => Ok (str_upper s) | _ => Raise AttributeError end.
End Builtins.

Fixpoint str_split (sep : N) (s : str) : list str :=
  match s with
  | [] => [[]]
  | c :: r =>
      if (c =? sep)%N then [] :: str_split sep r
      else match str_split sep r with
           | p :: ps => (c :: p) :: ps
           | [] => [[c]]
           end
  end.

Definition str_contains (c : N) (s : str) : bool := existsb (N.eqb c) s.

(** [str(x)] inside an f-string, for a CSV cell. *)
Definition format_cell (v : option str) : str :=
  match v with Some s => s | None => u "None" end.

(* --------------------------------------------------------------------- *)
(** ** src/geo/gazetteer.py                                               *)
(* --------------------------------------------------------------------- *)

(** The entry dicts the loaders build; a name is whatever the CSV cell
    held, a str or None. *)
Record country := Country {
  c_lat : pyfloat; c_lon : pyfloat; c_name : option str;
  c_iso2 : str; c_iso3 : str; c_pop : Z }.

Record admin1 := Admin1 {
  a_lat : pyfloat; a_lon : pyfloat; a_name : option str;
  a_country_iso2 : str }.

Record city := City {
  ci_lat : pyfloat; ci_lon : pyfloat; ci_name : option str;
  ci_admin1_name : option str; ci_country_iso2 : str; ci_pop : Z }.

(** The five index dicts of a [Gazetteer] object. *)
Record gazetteer := Gaz {
  country_by_iso2 : gmap str country;
  country_by_iso3 : gmap str country;
  country_by_name : gmap str country;
  admin1_by_key : gmap str admin1;
  cities_by_key : gmap str city }.

(** A [csv.DictReader] row: column name to cell; a cell missing at the end
    of a short line is None. *)
Abbreviation csv_row := (gmap str (option str)).

(** The reference files: a path that exists holds the rows DictReader
    yields. *)
Abbreviation filesystem := (str → option (list csv_row)).

Definition cell_val (c : option str) : pyval :=
  match c with Some s => VStr s | None => VNone end.

(** [row[k]] *)
Definition row_item (row : csv_row) (k : str) : result (option str) :=
  match row !! k with Some c => Ok c | None => Raise KeyError end.

(** [row.get(k, 0)] *)
Definition row_get0 (row : csv_row) (k : str) : pyval :=
  match row !! k with Some c => cell_val c | None => VInt 0 end.

(** [os.path.join(a, b)] for a relative [b]. *)
Definition path_join (a b : str) : str :=
  match last a with
  | None => b
  | Some c => if (c =? 47)%N then a ++ b else a ++ u "/" ++ b
  end.

Definition colon : str := Eval vm_compute in u ":".

Module Gazetteer.
Section Methods.
Context `{rt : PyRuntime}.

(** [re.sub(r'[^\w\s\-,]', '', text)] keeps these characters. *)
Definition kept (c : N) : bool :=
  isword c || isspace c || (c =? 45)%N || (c =? 44)%N.

(** [re.sub(r'\s+', ' ', text)]: a whitespace character that ends its
    run becomes one space, the others vanish. *)
Fixpoint collapse_ws (s : str) : str :=
  match s with
  | [] => []
  | c :: r =>
      if isspace c then
        match r with
        | c' :: _ => if isspace c' then collapse_ws r else 32%N :: collapse_ws r
        | [] => [32%N]
        end
      else c :: collapse_ws r
  end.

(** Lines 31-36 of [_normalize], on a str. *)
Definition normalize_text (text : str) : str :=
  let text := nfkd text in
  let text := filter (λ c, combining c = 0%N) text in
  let text := str_strip (str_lower text) in
  let text := filter (λ c, kept c = true) text in
  collapse_ws text.

Definition _normalize (text : pyval) : result str :=
  if negb (truthy text) then Ok []
  else match text with
       | VStr s => Ok (normalize_text s)
       | _ => Raise TypeError
       end.

(** Lines 47-54 and the key of line 58: what one row contributes. *)
Definition country_entry (row : csv_row) : result (str * country) :=
  iso2 ← (c ← row_item row (u "iso2"); py_upper (cell_val c));
  iso3 ← (c ← row_item row (u "iso3"); py_upper (cell_val c));
  name ← row_item row (u "name");
  lat ← (c ← row_item row (u "lat"); py_float (cell_val c));
  lon ← (c ← row_item row (u "lon"); py_float (cell_val c));
  pop ← py_int (row_get0 row (u "population"));
  key ← _normalize (cell_val name);
  Ok (key, Country lat lon name iso2 iso3 pop).

(** Lines 56-58. *)
Definition add_country (self : gazetteer) (ke : str * country) : gazetteer :=
  Gaz (<[c_iso2 ke.2 := ke.2]> (country_by_iso2 self))
      (<[c_iso3 ke.2 := ke.2]> (country_by_iso3 self))
      (<[ke.1 := ke.2]> (country_by_name self))
      (admin1_by_key self) (cities_by_key self).

Definition country_row (self : gazetteer) (row : csv_row) : result gazetteer :=
  ke ← country_entry row; Ok (add_country self ke).

Definition _load_countries (fs : filesystem) (path : str)
    (self : gazetteer) (stdout : list str) : result (gazetteer * list str) :=
  match fs path with
  | None =>
      Ok (self, stdout ++ [u "Warning: Country centroids file not found: " ++ path])
  | Some rows => self' ← foldM country_row rows self; Ok (self', stdout)
  end.

(** Lines 69-74. *)
Definition admin1_entry (row : csv_row) : result (str * admin1) :=
  country_iso2 ← (c ← row_item row (u "country_iso2"); py_upper (cell_val c));
  admin1_name ← row_item row (u "admin1_name");
  lat ← (c ← row_item row (u "lat"); py_float (cell_val c));
  lon ← (c ← row_item row (u "lon"); py_float (cell_val c));
  norm ← _normalize (cell_val admin1_name);
  Ok (country_iso2 ++ colon ++ norm, Admin1 lat lon admin1_name country_iso2).

(** Lines 75-80. *)
Definition add_admin1 (self : gazetteer) (ke : str * admin1) : gazetteer :=
  Gaz (country_by_iso2 self) (country_by_iso3 self) (country_by_name self)
      (<[ke.1 := ke.2]> (admin1_by_key self))
      (cities_by_key self).

Definition admin1_row (self : gazetteer) (row : csv_row) : result gazetteer :=
  ke ← admin1_entry row; Ok (add_admin1 self ke).

Definition _load_admin1 (fs : filesystem) (path : str)
    (self : gazetteer) (stdout : list str) : result (gazetteer * list str) :=
  match fs path with
  | None =>
      Ok (self, stdout ++ [u "Warning: Admin1 centroids file not found: " ++ path])
  | Some rows => self' ← foldM admin1_row rows self; Ok (self', stdout)
  end.

(** Lines 113-116: the precise key is always written; the
    admin-agnostic key only when free or beaten on population. *)
Definition index_city (key key_country : str) (entry : city)
    (cities : gmap str city) : gmap str city :=
  let cities := <[key := entry]> cities in
  match cities !! key_country with
  | None => <[key_country := entry]> cities
  | Some old =>
      if ci_pop entry >? ci_pop old then <[key_country := entry]> cities
      else cities
  end.

(** Lines 91-111: the precise key, the admin-agnostic key and the
    entry of one row. *)
Definition city_entry (row : csv_row) : result (str * str * city) :=
  country_iso2 ← (c ← row_item row (u "country_iso2"); py_upper (cell_val c));
  admin1_name ← row_item row (u "admin1_name");
  city ← row_item row (u "city");
  lat ← (c ← row_item row (u "lat"); py_float (cell_val c));
  lon ← (c ← row_item row (u "lon"); py_float (cell_val c));
  pop ← py_int (row_get0 row (u "pop"));
  norm_city ← _normalize (cell_val city);
  norm_admin1 ← _normalize (cell_val admin1_name);
  let key := country_iso2 ++ colon ++ norm_admin1 ++ colon ++ norm_city in
  let key_country := country_iso2 ++ colon ++ norm_city in
  Ok (key, key_country, City lat lon city admin1_name country_iso2 pop).

Definition add_city (self : gazetteer) (kke : str * str * city) : gazetteer :=
  Gaz (country_by_iso2 self) (country_by_iso3 self) (country_by_name self)
      (admin1_by_key self)
      (index_city kke.1.1 kke.1.2 kke.2 (cities_by_key self)).

Definition city_row (self : gazetteer) (row : csv_row) : result gazetteer :=
  kke ← city_entry row; Ok (add_city self kke).

Definition _load_cities (fs : filesystem) (path : str)
    (self : gazetteer) (stdout : list str) : result (gazetteer * list str) :=
  match fs path with
  | None => Ok (self, stdout ++ [u "Warning: Cities file not found: " ++ path])
  | Some rows => self' ← foldM city_row rows self; Ok (self', stdout)
  end.

Definition aliases : list (str * str) :=
  [ (u "usa", u "US"); (u "u.s.", u "US");
    (u "united states of america", u "US"); (u "america", u "US");
    (u "uk", u "GB"); (u "united kingdom", u "GB");
    (u "britain", u "GB"); (u "england", u "GB");
    (u "drc", u "CD"); (u "democratic republic of the congo", u "CD");
    (u "uae", u "AE"); (u "emirates", u "AE") ].

Definition alias_step (self : gazetteer) (a : str * str) : result gazetteer :=
  norm_alias ← _normalize (VStr a.1);
  match country_by_iso2 self !! a.2, country_by_name self !! norm_alias with
  | Some entry, None =>
      Ok (Gaz (country_by_iso2 self) (country_by_iso3 self)
              (<[norm_alias := entry]> (country_by_name self))
              (admin1_by_key self) (cities_by_key self))
  | _, _ => Ok self
  end.

Definition _build_aliases (self : gazetteer) : result gazetteer :=
  foldM alias_step aliases self.

Definition __init__ (fs : filesystem) (data_dir : str)
    : result (gazetteer * list str) :=
  let self := Gaz ∅ ∅ ∅ ∅ ∅ in
  '(self, out) ← _load_countries fs (path_join data_dir (u "country_centroids.csv")) self [];
  '(self, out) ← _load_admin1 fs (path_join data_dir (u "admin1_centroids.csv")) self out;
  '(self, out) ← _load_cities fs (path_join data_dir (u "cities_light.csv")) self out;
  self ← _build_aliases self;
  Ok (self, out).

Definition find_country (self : gazetteer) (name_or_code : str)
    : result (option country) :=
  if bool_decide (name_or_code = []) then Ok None
  else
    let code_upper := str_strip (str_upper name_or_code) in
    match (if bool_decide (length code_upper = 2%nat)
           then country_by_iso2 self !! code_upper else None) with
    | Some c => Ok (Some c)
    | None =>
        match (if bool_decide (length code_upper = 3%nat)
               then country_by_iso3 self !! code_upper else None) with
        | Some c => Ok (Some c)
        | None =>
            norm_name ← _normalize (VStr name_or_code);
            Ok (country_by_name self !! norm_name)
        end
    end.

Definition find_admin1 (self : gazetteer) (country_code admin1_name : str)
    : result (option admin1) :=
  if bool_decide (country_code = []) || bool_decide (admin1_name = []) then Ok None
  else
    let country_code_upper := str_strip (str_upper country_code) in
    norm_admin1 ← _normalize (VStr admin1_name);
    Ok (admin1_by_key self !! (country_code_upper ++ colon ++ norm_admin1)).

Definition find_city (self : gazetteer) (country_code : str)
    (admin1_name : option str) (city_name : str) : result (option city) :=
  if bool_decide (country_code = []) || bool_decide (city_name = []) then Ok None
  else
    let country_code_upper := str_strip (str_upper country_code) in
    norm_city ← _normalize (VStr city_name);
    precise ←
      (if truthy (cell_val admin1_name) then
         norm_admin1 ← _normalize (cell_val admin1_name);
         Ok (cities_by_key self
               !! (country_code_upper ++ colon ++ norm_admin1 ++ colon ++ norm_city))
       else Ok None);
    match precise with
    | Some c => Ok (Some c)
    | None => Ok (cities_by_key self !! (country_code_upper ++ colon ++ norm_city))
    end.
End Methods.
End Gazetteer.

(* --------------------------------------------------------------------- *)
(** ** src/geo/resolve.py                                                 *)
(* --------------------------------------------------------------------- *)

(** The int literals of the range checks and of [/ 2], and the float
    literals of the confidence scores. *)
Definition f_m90 : pyfloat := Eval vm_compute in fl_lit (-90) 0.
Definition f_90 : pyfloat := Eval vm_compute in fl_lit 90 0.
Definition f_m180 : pyfloat := Eval vm_compute in fl_lit (-180) 0.
Definition f_180 : pyfloat := Eval vm_compute in fl_lit 180 0.
Definition f_2 : pyfloat := Eval vm_compute in fl_lit 2 0.
Definition f_0_0 : pyfloat := Eval vm_compute in fl_lit 0 0.
Definition f_1_0 : pyfloat := Eval vm_compute in fl_lit 1 0.
Definition f_0_8 : pyfloat := Eval vm_compute in fl_lit 8 (-1).
Definition f_0_75 : pyfloat := Eval vm_compute in fl_lit 75 (-2).
Definition f_0_05 : pyfloat := Eval vm_compute in fl_lit 5 (-2).
Definition f_0_72 : pyfloat := Eval vm_compute in fl_lit 72 (-2).
Definition f_0_7 : pyfloat := Eval vm_compute in fl_lit 7 (-1).
Definition f_0_6 : pyfloat := Eval vm_compute in fl_lit 6 (-1).

(** [-90 <= lat <= 90 and -180 <= lon <= 180] *)
Definition in_range (lat lon : pyfloat) : bool :=
  fl_leb f_m90 lat && fl_leb lat f_90 && fl_leb f_m180 lon && fl_leb lon f_180.

(** [(a + b) / 2] *)
Definition half_sum (a b : pyfloat) : result pyfloat :=
  match fl_div (fl_add a b) f_2 with
  | Some m => Ok m
  | None => Raise ZeroDivisionError
  end.

Arguments round_q : simpl never.
Arguments fl_lit : simpl never.
Arguments in_range : simpl never.
Arguments half_sum : simpl never.

Section Resolve.
Context `{rt : PyRuntime}.

Definition bbox_centroid (bbox : pyval) : result (option (pyfloat * pyfloat)) :=
  if negb (truthy bbox) then Ok None
  else
    n ← py_len bbox;
    if negb (n =? 4) then Ok None
    else
      try_except
        (items ← py_iter bbox;
         vals ← mapM py_float items;
         match vals with
         | [min_lon; min_lat; max_lon; max_lat] =>
             lat ← half_sum min_lat max_lat;
             lon ← half_sum min_lon max_lon;
             if in_range lat lon then Ok (Some (lat, lon)) else Ok None
         | _ => Raise ValueError
         end)
        (Ok None).

(** Objects are dicts on a heap; [calls] records, in order, the
    gazetteer lookups a run makes. *)
Inductive gaz_call :=
  | FindCountry (name_or_code : str)
  | FindCity (country_code : str) (admin1_name : option str) (city_name : str)
  | FindAdmin1 (country_code admin1_name : str).

Record world := World {
  heap : gmap positive (gmap str pyval);
  calls : list gaz_call }.

Definition M (A : Type) : Type := world → result A * world.

#[global] Instance M_ret : MRet M := λ A a w, (Ok a, w).
#[global] Instance M_bind : MBind M := λ A B f m w,
  match m w with
  | (Ok a, w') => f a w'
  | (Raise e, w') => (Raise e, w')
  end.

Definition lift {A} (r : result A) : M A := λ w, (r, w).

Definition try_except_M {A} (body : M A) (handler : M A) : M A := λ w,
  match body w with
  | (Raise e, w') => if except_value_type e then handler w' else (Raise e, w')
  | ok => ok
  end.

(** [rec.copy()]: a new object with the same items. *)
Definition dict_copy (a : positive) : M positive := λ w,
  let a' := fresh (dom (heap w)) in
  (Ok a', World (<[a' := heap w !!! a]> (heap w)) (calls w)).

(** [d[k] = v] *)
Definition dict_set (a : positive) (k : str) (v : pyval) : M unit := λ w,
  (Ok (), World (<[a := <[k := v]> (heap w !!! a)]> (heap w)) (calls w)).

(** [d.get(k, dflt)] *)
Definition dict_get (a : positive) (k : str) (dflt : pyval) : M pyval := λ w,
  (Ok (default dflt ((heap w !!! a) !! k)), w).

Definition call_find_country (gaz : gazetteer) (s : str) : M (option country) :=
  λ w, (Gazetteer.find_country gaz s, World (heap w) (calls w ++ [FindCountry s])).

Definition call_find_city (gaz : gazetteer) (cc : str) (adm : option str)
    (cty : str) : M (option city) :=
  λ w, (Gazetteer.find_city gaz cc adm cty,
        World (heap w) (calls w ++ [FindCity cc adm cty])).

Definition call_find_admin1 (gaz : gazetteer) (cc adm : str) : M (option admin1) :=
  λ w, (Gazetteer.find_admin1 gaz cc adm,
        World (heap w) (calls w ++ [FindAdmin1 cc adm])).

(** The five assignments every successful tier makes. *)
Definition set_location (result : positive) (lat lon : pyfloat)
    (method : str) (confidence : pyfloat) (notes : str) : M unit :=
  dict_set result (u "lat") (VFloat lat);;
  dict_set result (u "lon") (VFloat lon);;
  dict_set result (u "loc_method") (VStr method);;
  dict_set result (u "loc_confidence") (VFloat confidence);;
  dict_set result (u "loc_notes") (VStr notes).

(** Lines 37-52; [true] means the function returned here. *)
Definition tier_provided_point (result : positive) : M bool :=
  lat ← dict_get result (u "lat") VNone;
  lon ← dict_get result (u "lon") VNone;
  if negb (is_none lat) && negb (is_none lon) then
    try_except_M
      (lat ← lift (py_float lat);
       lon ← lift (py_float lon);
       if in_range lat lon then
         set_location result lat lon (u "provided_point") f_1_0
           (u "Coordinates provided in source data");;
         mret true
       else mret false)
      (mret false)
  else mret false.

(** Lines 54-62. *)
Definition tier_bbox (result : positive) : M bool :=
  bbox ← dict_get result (u "bbox") VNone;
  if truthy bbox then
    centroid ← lift (bbox_centroid bbox);
    match centroid with
    | Some (lat, lon) =>
        set_location result lat lon (u "bbox_centroid") f_0_8
          (u "Centroid of bounding box");;
        mret true
    | None => mret false
    end
  else mret false.

(** [result.get(k, '').strip()] *)
Definition get_stripped (result : positive) (k : str) : M str :=
  v ← dict_get result k (VStr []);
  lift (py_strip v).

(** Lines 70-74. *)
Definition resolve_country (gaz : gazetteer) (country_code country_name : str)
    : M (option country) :=
  country_data ←
    (if truthy (VStr country_code) then call_find_country gaz country_code
     else mret None);
  if negb (bool_decide (is_Some country_data)) && truthy (VStr country_name)
  then call_find_country gaz country_name
  else mret country_data.

(** Lines 76-89. *)
Definition tier_city (result : positive) (gaz : gazetteer)
    (country_data : option country) (admin1_name city_name : str) : M bool :=
  match country_data with
  | Some cd =>
      if truthy (VStr city_name) then
        city_data ← call_find_city gaz (c_iso2 cd) (Some admin1_name) city_name;
        match city_data with
        | Some cty =>
            let confidence := f_0_75 in
            let confidence :=
              if truthy (VStr admin1_name) then fl_add confidence f_0_05
              else confidence in
            let confidence :=
              if ci_pop cty >? 1000000 then fl_add confidence f_0_05
              else confidence in
            set_location result (ci_lat cty) (ci_lon cty) (u "city_geocode")
              (fl_min confidence f_1_0)
              (u "City: " ++ format_cell (ci_name cty) ++ u ", "
                 ++ format_cell (c_name cd));;
            mret true
        | None => mret false
        end
      else mret false
  | None => mret false
  end.

(** Lines 91-105. *)
Definition tier_place_name (result : positive) (gaz : gazetteer)
    (country_data : option country) (place_name : str) : M bool :=
  match country_data with
  | Some cd =>
      if truthy (VStr place_name) && str_contains 44 place_name then
        match str_strip <$> str_split 44 place_name with
        | possible_city :: possible_admin1 :: _ =>
            city_data ← call_find_city gaz (c_iso2 cd) (Some possible_admin1)
                          possible_city;
            match city_data with
            | Some cty =>
                set_location result (ci_lat cty) (ci_lon cty) (u "city_geocode")
                  f_0_72
                  (u "Parsed from place name: " ++ format_cell (ci_name cty));;
                mret true
            | None => mret false
            end
        | _ => mret false
        end
      else mret false
  | None => mret false
  end.

(** Lines 107-115. *)
Definition tier_admin1 (result : positive) (gaz : gazetteer)
    (country_data : option country) (admin1_name : str) : M bool :=
  match country_data with
  | Some cd =>
      if truthy (VStr admin1_name) then
        admin1_data ← call_find_admin1 gaz (c_iso2 cd) admin1_name;
        match admin1_data with
        | Some adm =>
            set_location result (a_lat adm) (a_lon adm) (u "admin1_centroid")
              f_0_7
              (u "Admin1: " ++ format_cell (a_name adm) ++ u ", "
                 ++ format_cell (c_name cd));;
            mret true
        | None => mret false
        end
      else mret false
  | None => mret false
  end.

(** Lines 117-126. *)
Definition tier_country (result : positive) (country_data : option country)
    : M unit :=
  match country_data with
  | Some cd =>
      set_location result (c_lat cd) (c_lon cd) (u "country_centroid") f_0_6
        (u "Country: " ++ format_cell (c_name cd))
  | None => dict_set result (u "loc_notes") (VStr (u "Could not resolve location"))
  end.

Definition resolve_location (rec : positive) (gaz : gazetteer) : M positive :=
  result ← dict_copy rec;
  dict_set result (u "loc_method") VNone;;
  dict_set result (u "loc_confidence") (VFloat f_0_0);;
  dict_set result (u "loc_notes") (VStr []);;
  returned ← tier_provided_point result;
  if returned : bool then mret result else
  returned ← tier_bbox result;
  if returned : bool then mret result else
  country_code ← (s ← get_stripped result (u "country_code"); mret (str_upper s));
  country_name ← get_stripped result (u "country");
  admin1_name ← get_stripped result (u "admin1");
  city_name ← get_stripped result (u "city");
  place_name ← get_stripped result (u "place_name");
  country_data ← resolve_country gaz country_code country_name;
  returned ← tier_city result gaz country_data admin1_name city_name;
  if returned : bool then mret result else
  returned ← tier_place_name result gaz country_data place_name;
  if returned : bool then mret result else
  returned ← tier_admin1 result gaz country_data admin1_name;
  if returned : bool then mret result else
  tier_country result country_data;;
  mret result.

(** [enrich_events] with a gazetteer supplied. *)
Fixpoint enrich_events (events : list positive) (gaz : gazetteer) : M (list positive) :=
  match events with
  | [] => mret []
  | event :: rest =>
      enriched_event ← resolve_location event gaz;
      enriched ← enrich_events rest gaz;
      mret (enriched_event :: enriched)
  end.
End Resolve.

(* --------------------------------------------------------------------- *)
(** ** A concrete runtime and sample data                                 *)
(* --------------------------------------------------------------------- *)

(** The interpreter tables restricted to what ASCII text exercises:
    whitespace is the full [str.isspace] set, case mapping and [\w] are
    the ASCII ones, NFKD leaves ASCII unchanged, and the number parsers read
    plain decimal notation.  The general theorems hold for every runtime;
    this one runs the examples. *)
Definition ascii_isspace (c : N) : bool :=
  bool_decide (c ∈ [9; 10; 11; 12; 13; 28; 29; 30; 31; 32; 133; 160; 5760;
                    8232; 8233; 8239; 8287; 12288]%N)
  || ((8192 <=? c) && (c <=? 8202))%N.

Definition ascii_isword (c : N) : bool :=
  ((48 <=? c) && (c <=? 57) || (65 <=? c) && (c <=? 90)
   || (97 <=? c) && (c <=? 122) || (c =? 95))%N.

Definition ascii_lower (c : N) : N :=
  if ((65 <=? c) && (c <=? 90))%N then (c + 32)%N else c.

Definition ascii_upper (c : N) : N :=
  if ((97 <=? c) && (c <=? 122))%N then (c - 32)%N else c.

Definition digit (c : N) : option Z :=
  if ((48 <=? c) && (c <=? 57))%N then Some (Z.of_N c - 48) else None.

(** Leading decimal digits: their value on top of [acc], how many, and
    the rest of the text. *)
Fixpoint digits (s : str) (acc : Z) (count : Z) : Z * Z * str :=
  match s with
  | c :: r =>
      match digit c with
      | Some d => digits r (10 * acc + d) (count + 1)
      | None => (acc, count, s)
      end
  | [] => (acc, count, [])
  end.

Definition sign (s : str) : bool * str :=
  match s with
  | 45%N :: r => (true, r)
  | 43%N :: r => (false, r)
  | _ => (false, s)
  end.

Definition ascii_int_of_str (s : str) : option Z :=
  let '(neg, s) := sign (strip_with ascii_isspace s) in
  match digits s 0 0 with
  | (m, n, []) => if 0 <? n then Some (if neg then - m else m) else None
  | _ => None
  end.

(** [inf], [infinity] and [nan] in any case, then decimal notation with an
    optional fraction and exponent. *)
Definition ascii_float_of_str (s : str) : option pyfloat :=
  let '(neg, s) := sign (strip_with ascii_isspace s) in
  let word := ascii_lower <$> s in
  if bool_decide (word = u "inf") || bool_decide (word = u "infinity")
  then Some (FInf neg)
  else if bool_decide (word = u "nan") then Some FNaN
  else
    let '(ip, ni, s) := digits s 0 0 in
    let '(m, nf, s) :=
      match s with
      | 46%N :: r => digits r ip 0
      | _ => (ip, 0, s)
      end in
    if negb (0 <? ni + nf) then None
    else
      let m := if neg then - m else m in
      match s with
      | [] => Some (fl_lit m (- nf))
      | c :: r =>
          if bool_decide (ascii_lower c = 101%N) then
            let '(eneg, r) := sign r in
            match digits r 0 0 with
            | (e, n, []) =>
                if 0 <? n then Some (fl_lit m ((if eneg then - e else e) - nf))
                else None
            | _ => None
            end
          else None
      end.

Definition ascii_rt : PyRuntime := {|
  isspace := ascii_isspace;
  isword := ascii_isword;
  combining := λ _, 0%N;
  nfkd := λ s, s;
  str_lower := fmap ascii_lower;
  str_upper := fmap ascii_upper;
  float_of_str := ascii_float_of_str;
  int_of_str := ascii_int_of_str |}.

(** Sample reference tables. *)
Definition row (cells : list (string * string)) : csv_row :=
  list_to_map ((λ kv, (u kv.1, Some (u kv.2))) <$> cells).

Definition sample_countries : list csv_row :=
  [ row [("iso2", "US"); ("iso3", "USA"); ("name", "United States");
         ("lat", "39.8"); ("lon", "-98.6"); ("population", "331000000")];
    row [("iso2", "MX"); ("iso3", "MEX"); ("name", "Mexico");
         ("lat", "23.6"); ("lon", "-102.5"); ("population", "128900000")] ].

Definition sample_admin1 : list csv_row :=
  [ row [("country_iso2", "US"); ("admin1_name", "California");
         ("lat", "36.78"); ("lon", "-119.42")];
    row [("country_iso2", "US"); ("admin1_name", "Illinois");
         ("lat", "40.0"); ("lon", "-89.0")] ].

Definition sample_cities : list csv_row :=
  [ row [("country_iso2", "US"); ("admin1_name", "California");
         ("city", "Los Angeles"); ("lat", "34.05"); ("lon", "-118.24");
         ("pop", "3898747")];
    row [("country_iso2", "US"); ("admin1_name", "Illinois");
         ("city", "Springfield"); ("lat", "39.78"); ("lon", "-89.65");
         ("pop", "114394")];
    row [("country_iso2", "US"); ("admin1_name", "Missouri");
         ("city", "Springfield"); ("lat", "37.21"); ("lon", "-93.29");
         ("pop", "169176")] ].

Definition sample_fs : filesystem := λ path,
  if bool_decide (path = u "geo/country_centroids.csv") then Some sample_countries
  else if bool_decide (path = u "geo/admin1_centroids.csv") then Some sample_admin1
  else if bool_decide (path = u "geo/cities_light.csv") then Some sample_cities
  else None.

Definition sample_gaz : gazetteer :=
  match Gazetteer.__init__ (rt := ascii_rt) sample_fs (u "geo") with
  | Ok (g, _) => g
  | Raise _ => Gaz ∅ ∅ ∅ ∅ ∅
  end.

(** A heap holding one record at address 1. *)
Definition one_record (items : list (string * pyval)) : world :=
  World {[ 1%positive := list_to_map ((λ kv, (u kv.1, kv.2)) <$> items) ]} [].

(** The five result fields of the object a run returns. *)
Definition outcome (r : result positive * world)
    : option (list (option pyval)) :=
  match r with
  | (Ok a, w) =>
      d ← heap w !! a;
      Some ((λ k, d !! u k) <$> ["lat"; "lon"; "loc_method"; "loc_confidence"; "loc_notes"]%string)
  | _ => None
  end.


(* --------------------------------------------------------------------- *)
(** ** Vocabulary of the statements                                       *)
(* --------------------------------------------------------------------- *)

Definition is_finite (x : pyfloat) : bool :=
  match x with FFin _ => true | _ => false end.

(** The record after a tier has located it. *)
Definition located (d : gmap str pyval) (lat lon : pyfloat) (method : str)
    (confidence : pyfloat) (notes : str) : gmap str pyval :=
  <[u "loc_notes" := VStr notes]>
    (<[u "loc_confidence" := VFloat confidence]>
      (<[u "loc_method" := VStr method]>
        (<[u "lon" := VFloat lon]> (<[u "lat" := VFloat lat]> d)))).

(** The copy after lines 33-35. *)
Definition unlocated (d : gmap str pyval) : gmap str pyval :=
  <[u "loc_notes" := VStr []]>
    (<[u "loc_confidence" := VFloat f_0_0]> (<[u "loc_method" := VNone]> d)).

(** The five keys [resolve_location] may write. *)
Definition location_keys : list str :=
  [u "lat"; u "lon"; u "loc_method"; u "loc_confidence"; u "loc_notes"].

Section Decisions.
Context `{rt : PyRuntime}.

(** What lines 37-44 decide from the record: the point of tier 1, if
    any. *)
Definition provided_point (d : gmap str pyval) : result (option (pyfloat * pyfloat)) :=
  let lat := default VNone (d !! u "lat") in
  let lon := default VNone (d !! u "lon") in
  if negb (is_none lat) && negb (is_none lon) then
    try_except
      (lat ← py_float lat;
       lon ← py_float lon;
       if in_range lat lon then Ok (Some (lat, lon)) else Ok None)
      (Ok None)
  else Ok None.

(** What lines 54-57 decide: the point of tier 2, if any. *)
Definition bbox_point (d : gmap str pyval) : result (option (pyfloat * pyfloat)) :=
  let bbox := default VNone (d !! u "bbox") in
  if truthy bbox then bbox_centroid bbox else Ok None.

(** [rec.get(k, '').strip()] *)
Definition signal_text (d : gmap str pyval) (k : str) : result str :=
  py_strip (default (VStr []) (d !! k)).
End Decisions.

Section Decisions2.
Context `{rt : PyRuntime}.

(** Lines 64-68: the five text fields, in the order the code reads
    them. *)
Definition signal_texts (d : gmap str pyval) : result (str * str * str * str * str) :=
  country_code ← signal_text d (u "country_code");
  country_name ← signal_text d (u "country");
  admin1_name ← signal_text d (u "admin1");
  city_name ← signal_text d (u "city");
  place_name ← signal_text d (u "place_name");
  Ok (str_upper country_code, country_name, admin1_name, city_name, place_name).

(** Lines 70-126 of [resolve_location], once the text fields are read. *)
Definition resolve_tail (result : positive) (gaz : gazetteer)
    (country_code country_name admin1_name city_name place_name : str) : M positive :=
  country_data ← resolve_country gaz country_code country_name;
  returned ← tier_city result gaz country_data admin1_name city_name;
  if returned : bool then mret result else
  returned ← tier_place_name result gaz country_data place_name;
  if returned : bool then mret result else
  returned ← tier_admin1 result gaz country_data admin1_name;
  if returned : bool then mret result else
  tier_country result country_data;;
  mret result.

(** The value lines 70-74 leave in [country_data], and the lookups they
    make. *)
Definition country_data (gaz : gazetteer) (country_code country_name : str)
    : result (option country) :=
  (resolve_country gaz country_code country_name (World ∅ [])).1.

Definition country_calls (gaz : gazetteer) (country_code country_name : str)
    : list gaz_call :=
  calls (resolve_country gaz country_code country_name (World ∅ [])).2.
End Decisions2.

Definition is_find_country (c : gaz_call) : bool :=
  match c with FindCountry _ => true | _ => false end.

(** A confidence a successful tier may write: above 0, at most 1. *)
Definition scored (c : pyfloat) : Prop :=
  fl_ltb f_0_0 c = true ∧ fl_leb c f_1_0 = true.

(** The +0.05 of a bonus that applies. *)
Definition bonus (applies : bool) : pyfloat := if applies then f_0_05 else f_0_0.

(** What a tier can do to the result object [a] holding [d]: return False
    or raise for a reason in [R], leaving it alone, or return True having
    located it.  No tier looks a country up. *)
Definition tier_outcome (R : exn → Prop) (a : positive) (d : gmap str pyval)
    (h : gmap positive (gmap str pyval)) (cs : list gaz_call)
    (r : result bool * world) : Prop :=
  ∃ tr,
    Forall (λ c, is_find_country c = false) tr ∧
    (r = (Ok false, World (<[a := d]> h) (cs ++ tr)) ∨
     (∃ e, R e ∧ r = (Raise e, World (<[a := d]> h) (cs ++ tr))) ∨
     (∃ lat lon m c n,
         scored c ∧
         r = (Ok true, World (<[a := located d lat lon m c n]> h) (cs ++ tr)))).

(** The confidence of lines 82-87, in one expression. *)
Definition city_confidence (admin1_name : str) (pop : Z) : pyfloat :=
  fl_min (fl_add (fl_add f_0_75 (bonus (truthy (VStr admin1_name))))
                 (bonus (pop >? 1000000)))
         f_1_0.

(** A JSON number, and the double that equals it. *)
Definition is_number (v : pyval) : bool :=
  match v with VInt _ | VFloat _ => true | _ => false end.

Definition same_number (v : pyval) (f : pyfloat) : Prop :=
  match v with
  | VFloat g => f = g
  | VInt z => f = FFin (z * units)
  | _ => False
  end.

(** Two entries the sample tables produce. *)
Definition sample_us : country :=
  Country (fl_lit 398 (-1)) (fl_lit (-986) (-1)) (Some (u "United States"))
          (u "US") (u "USA") 331000000.

Definition sample_la : city :=
  City (fl_lit 3405 (-2)) (fl_lit (-11824) (-2)) (Some (u "Los Angeles"))
       (Some (u "California")) (u "US") 3898747.

Section Signals.
Context `{rt : PyRuntime}.

(** [float(v)] does not overflow: [v] is not an int beyond the doubles. *)
Definition no_overflow (v : pyval) : Prop := py_float v ≠ Raise OverflowError.

(** A bounding box [len()] and [float()] can handle: a falsy value, or a
    list of values that do not overflow, or a str or dict. *)
Definition sized_bbox (v : pyval) : Prop :=
  match v with
  | VList l => Forall no_overflow l
  | VStr _ | VDict _ => True
  | _ => truthy v = false
  end.

(** The field is absent or a str. *)
Definition text_field (d : gmap str pyval) (k : str) : Prop :=
  match d !! k with
  | Some (VStr _) | None => True
  | Some _ => False
  end.

(** The records the resolver is written for. *)
Definition typed_signal (d : gmap str pyval) : Prop :=
  (∀ v, d !! u "lat" = Some v → no_overflow v) ∧
  (∀ v, d !! u "lon" = Some v → no_overflow v) ∧
  (∀ v, d !! u "bbox" = Some v → sized_bbox v) ∧
  Forall (text_field d)
    [u "country_code"; u "country"; u "admin1"; u "city"; u "place_name"].
End Signals.


(* --------------------------------------------------------------------- *)
(** ** Vocabulary for the country and for malformed fields               *)
(* --------------------------------------------------------------------- *)

(** A lookup made in the country [cd]: its country argument is the
    two-letter code of [cd]. *)
Definition in_country (cd : country) (c : gaz_call) : Prop :=
  match c with
  | FindCountry _ => False
  | FindCity cc _ _ => cc = c_iso2 cd
  | FindAdmin1 cc _ => cc = c_iso2 cd
  end.

(** How a run that returns leaves its result: unresolved, or located. *)
Inductive verdict :=
  | Unresolved
  | Located (lat lon : pyfloat) (method : str) (confidence : pyfloat) (notes : str).

Definition settle (v : verdict) (d : gmap str pyval) : gmap str pyval :=
  match v with
  | Unresolved =>
      <[u "loc_notes" := VStr (u "Could not resolve location")]> (unlocated d)
  | Located lat lon m c n => located (unlocated d) lat lon m c n
  end.

(** The five text fields, in the order lines 64-68 read them. *)
Definition text_keys : list str :=
  [u "country_code"; u "country"; u "admin1"; u "city"; u "place_name"].

Section Misses.
Context `{rt : PyRuntime}.

(** Lines 76-78 do not locate the record: no city name, or a lookup
    that misses. *)
Definition city_misses (gaz : gazetteer) (cd : country) (adm cty : str) : Prop :=
  cty = [] ∨ Gazetteer.find_city gaz (c_iso2 cd) (Some adm) cty = Ok None.

(** Lines 91-98 do not locate the record: no comma in the place name,
    or a lookup of its first two parts that misses. *)
Definition place_misses (gaz : gazetteer) (cd : country) (place : str) : Prop :=
  str_contains 44 place = false ∨
  ∃ pc pa rest,
    str_strip <$> str_split 44 place = pc :: pa :: rest ∧
    Gazetteer.find_city gaz (c_iso2 cd) (Some pa) pc = Ok None.

(** Lines 107-109 do not locate the record. *)
Definition admin1_misses (gaz : gazetteer) (cd : country) (adm : str) : Prop :=
  adm = [] ∨ Gazetteer.find_admin1 gaz (c_iso2 cd) adm = Ok None.

(** A value [float()] refuses with an exception the resolver catches, or
    None. *)
Definition rejected (v : pyval) : Prop :=
  v = VNone ∨ py_float v = Raise ValueError ∨ py_float v = Raise TypeError.

(** The field [k] of the record is present and malformed: a coordinate
    that is None or that [float()] refuses, coordinates out of range, a
    bounding box that is falsy or has no centroid, a text that is empty
    once stripped. *)
Definition malformed (d : gmap str pyval) (k : str) : Prop :=
  match d !! k with
  | None => False
  | Some v =>
      ((k = u "lat" ∨ k = u "lon") ∧ rejected v) ∨
      ((k = u "lat" ∨ k = u "lon") ∧
       ∃ vlat vlon lat lon,
         d !! u "lat" = Some vlat ∧ d !! u "lon" = Some vlon ∧
         py_float vlat = Ok lat ∧ py_float vlon = Ok lon ∧
         in_range lat lon = false) ∨
      (k = u "bbox" ∧ (truthy v = false ∨ bbox_centroid v = Ok None)) ∨
      (k ∈ text_keys ∧ ∃ s, v = VStr s ∧ str_strip s = [])
  end.
End Misses.

(** One more entry of the sample tables. *)
Definition sample_mx : country :=
  Country (fl_lit 236 (-1)) (fl_lit (-1025) (-1)) (Some (u "Mexico"))
          (u "MX") (u "MEX") 128900000.

(* ===================================================================== *)
(** * Part II: properties                                                 *)
(* ===================================================================== *)

(* --------------------------------------------------------------------- *)
(** ** Rounding to nearest is monotone                                    *)
(* --------------------------------------------------------------------- *)

(** What it means for [n] to be the nearest integer to p/q, ties to
    even. *)
Definition rne_spec (p q n : Z) : Prop :=
  (2 * n - 1) * q <= 2 * p <= (2 * n + 1) * q /\
  (2 * p = (2 * n + 1) * q -> Z.even n = true) /\
  (2 * p = (2 * n - 1) * q -> Z.even n = true).

Lemma rne_div_spec p q : 0 < q -> rne_spec p q (rne_div p q).
Proof.
  intros Hq. unfold rne_spec, rne_div.
  pose proof (Z.div_mod p q ltac:(lia)) as Hdm.
  pose proof (Z.mod_pos_bound p q Hq) as Hr.
  set (d := p / q) in *. set (r := p mod q) in *.
  destruct (Z.compare_spec (2 * r) q) as [He|Hl|Hg].
  - destruct (Z.even d) eqn:Hev.
    + repeat split; intros; try assumption; try nia.
    + assert (Z.even (d + 1) = true) by (rewrite Z.even_add, Hev; reflexivity).
      repeat split; intros; try assumption; try nia.
  - repeat split; intros; try nia.
  - repeat split; intros; try nia.
Qed.

Lemma rne_spec_mono p1 q1 n1 p2 q2 n2 :
  0 < q1 -> 0 < q2 -> rne_spec p1 q1 n1 -> rne_spec p2 q2 n2 ->
  p1 * q2 <= p2 * q1 -> n1 <= n2.
Proof.
  intros H1 H2 (B1 & U1 & L1) (B2 & U2 & L2) Hle.
  destruct (Z_le_gt_dec n1 n2) as [|Hgt]; [assumption|exfalso].
  assert (Hq : 0 < q1 * q2) by nia.
  assert (E1 : (2 * n1 - 1) * (q1 * q2) <= 2 * (p1 * q2)) by nia.
  assert (E2 : 2 * (p2 * q1) <= (2 * n2 + 1) * (q1 * q2)) by nia.
  assert (Hn : n1 = n2 + 1) by nia.
  subst n1.
  assert (F1 : 2 * p1 = (2 * (n2 + 1) - 1) * q1) by nia.
  assert (F2 : 2 * p2 = (2 * n2 + 1) * q2) by nia.
  specialize (L1 F1). specialize (U2 F2).
  rewrite Z.even_add in L1. rewrite U2 in L1. discriminate.
Qed.

Lemma rne_spec_unique p q n n' :
  0 < q -> rne_spec p q n -> rne_spec p q n' -> n = n'.
Proof.
  intros Hq S1 S2.
  pose proof (rne_spec_mono _ _ _ _ _ _ Hq Hq S1 S2 ltac:(lia)).
  pose proof (rne_spec_mono _ _ _ _ _ _ Hq Hq S2 S1 ltac:(lia)).
  lia.
Qed.

Lemma rne_div_mono p1 q1 p2 q2 :
  0 < q1 -> 0 < q2 -> p1 * q2 <= p2 * q1 -> rne_div p1 q1 <= rne_div p2 q2.
Proof.
  intros H1 H2. apply rne_spec_mono; auto using rne_div_spec.
Qed.

Lemma rne_div_exact m q : 0 < q -> rne_div (m * q) q = m.
Proof.
  intros Hq. symmetry. apply (rne_spec_unique (m * q) q); auto using rne_div_spec.
  repeat split; intros; try nia.
Qed.

Lemma rne_div_opp p q : 0 < q -> rne_div (- p) q = - rne_div p q.
Proof.
  intros Hq. symmetry. apply (rne_spec_unique (- p) q); auto using rne_div_spec.
  destruct (rne_div_spec p q Hq) as (B & U & L).
  unfold rne_spec. rewrite Z.even_opp.
  repeat split; intros; try nia; [apply L|apply U]; nia.
Qed.

Lemma rne_div_scale c p q : 0 < c -> 0 < q -> rne_div (c * p) (c * q) = rne_div p q.
Proof.
  intros Hc Hq.
  assert (Hcq : 0 < c * q) by nia.
  symmetry. apply (rne_spec_unique (c * p) (c * q)); auto using rne_div_spec.
  destruct (rne_div_spec p q Hq) as (B & U & L).
  repeat split; intros; try nia; [apply U|apply L]; nia.
Qed.

Lemma rexp_nonneg p q : 0 <= rexp p q.
Proof. unfold rexp. lia. Qed.

Lemma rexp_opp p q : rexp (- p) q = rexp p q.
Proof. unfold rexp. now rewrite Z.abs_opp. Qed.

Lemma rexp_scale c p q : 0 < c -> 0 < q -> rexp (c * p) (c * q) = rexp p q.
Proof.
  intros Hc Hq. unfold rexp. rewrite Z.abs_mul, (Z.abs_eq c) by lia.
  rewrite Z.div_mul_cancel_l by lia. reflexivity.
Qed.

Lemma runb_opp p q : 0 < q -> runb (- p) q = - runb p q.
Proof.
  intros Hq. unfold runb. rewrite rexp_opp.
  pose proof (rexp_nonneg p q).
  rewrite rne_div_opp by (apply Z.mul_pos_pos; [lia|apply Z.pow_pos_nonneg; lia]).
  lia.
Qed.

Lemma runb_scale c p q : 0 < c -> 0 < q -> runb (c * p) (c * q) = runb p q.
Proof.
  intros Hc Hq. unfold runb. rewrite rexp_scale by assumption.
  pose proof (rexp_nonneg p q).
  rewrite <- Z.mul_assoc.
  rewrite rne_div_scale; auto.
  apply Z.mul_pos_pos; [lia|apply Z.pow_pos_nonneg; lia].
Qed.

(** Bounds on the scaled quotient that [rexp] selects. *)
Lemma rexp_upper p q :
  0 < q -> 0 <= p -> p < 2 ^ 53 * (q * 2 ^ rexp p q).
Proof.
  intros Hq Hp. unfold rexp. rewrite Z.abs_eq by lia.
  set (t := p / q).
  assert (Ht : 0 <= t) by (apply Z.div_pos; lia).
  assert (Hpt : p < q * (t + 1)).
  { pose proof (Z.div_mod p q ltac:(lia)). pose proof (Z.mod_pos_bound p q Hq). fold t in H. nia. }
  set (k := Z.max 0 (Z.log2 t - 52)).
  assert (Hk : 0 <= k) by lia.
  assert (Hlt : t < 2 ^ (53 + k)).
  { destruct (Z.eq_dec t 0) as [->|Hne].
    - apply Z.pow_pos_nonneg; lia.
    - apply Z.log2_lt_pow2; lia. }
  rewrite Z.pow_add_r in Hlt by lia.
  assert (0 < 2 ^ k) by (apply Z.pow_pos_nonneg; lia).
  nia.
Qed.

Lemma rexp_lower p q :
  0 < q -> 0 <= p -> 0 < rexp p q -> 2 ^ 52 * (q * 2 ^ rexp p q) <= p.
Proof.
  intros Hq Hp. unfold rexp. rewrite Z.abs_eq by lia.
  set (t := p / q). intros Hk.
  assert (Ht : 0 <= t) by (apply Z.div_pos; lia).
  assert (Hpt : q * t <= p).
  { pose proof (Z.div_mod p q ltac:(lia)). pose proof (Z.mod_pos_bound p q Hq). fold t in H. nia. }
  assert (Hl : 52 < Z.log2 t) by lia.
  assert (Htpos : 0 < t).
  { destruct (Z.eq_dec t 0) as [E|]; [rewrite E in Hl; simpl in Hl; lia|lia]. }
  replace (Z.max 0 (Z.log2 t - 52)) with (Z.log2 t - 52) in * by lia.
  assert (2 ^ (52 + (Z.log2 t - 52)) <= t).
  { replace (52 + (Z.log2 t - 52)) with (Z.log2 t) by lia. apply Z.log2_spec; lia. }
  rewrite Z.pow_add_r in H by lia.
  nia.
Qed.

Lemma rexp_mono p1 q1 p2 q2 :
  0 < q1 -> 0 < q2 -> 0 <= p1 -> p1 * q2 <= p2 * q1 -> rexp p1 q1 <= rexp p2 q2.
Proof.
  intros H1 H2 Hp Hle. unfold rexp.
  assert (Hp2 : 0 <= p2) by nia.
  rewrite !Z.abs_eq by lia.
  assert (p1 / q1 <= p2 / q2).
  { apply Z.div_le_lower_bound; [lia|].
    pose proof (Z.div_mod p1 q1 ltac:(lia)). pose proof (Z.mod_pos_bound p1 q1 H1).
    assert (q1 * (q2 * (p1 / q1)) <= q1 * p2) by nia.
    nia. }
  pose proof (Z.log2_le_mono _ _ H). lia.
Qed.

Lemma runb_mono_nonneg p1 q1 p2 q2 :
  0 < q1 -> 0 < q2 -> 0 <= p1 -> p1 * q2 <= p2 * q1 -> runb p1 q1 <= runb p2 q2.
Proof.
  intros H1 H2 Hp Hle.
  assert (Hp2 : 0 <= p2) by nia.
  pose proof (rexp_mono _ _ _ _ H1 H2 Hp Hle) as Hk.
  pose proof (rexp_nonneg p1 q1) as Hk1.
  pose proof (rexp_upper p1 q1 H1 Hp) as Hu.
  unfold runb.
  set (k1 := rexp p1 q1) in *. set (k2 := rexp p2 q2) in *.
  assert (P1 : 0 < 2 ^ k1) by (apply Z.pow_pos_nonneg; lia).
  assert (P2 : 0 < 2 ^ k2) by (apply Z.pow_pos_nonneg; lia).
  destruct (Z.eq_dec k1 k2) as [E|NE].
  - rewrite <- E. apply Z.mul_le_mono_nonneg_r; [lia|].
    apply rne_div_mono; nia.
  - assert (Hlt : k1 < k2) by lia.
    pose proof (rexp_lower p2 q2 H2 Hp2 ltac:(fold k2; lia)) as Hl. fold k2 in Hl.
    assert (A : rne_div p1 (q1 * 2 ^ k1) <= 2 ^ 53).
    { pose proof (rne_div_mono p1 (q1 * 2 ^ k1) (2 ^ 53 * (q1 * 2 ^ k1)) (q1 * 2 ^ k1)
                    ltac:(nia) ltac:(nia) ltac:(nia)) as X.
      rewrite rne_div_exact in X by nia. exact X. }
    assert (B : 2 ^ 52 <= rne_div p2 (q2 * 2 ^ k2)).
    { pose proof (rne_div_mono (2 ^ 52 * (q2 * 2 ^ k2)) (q2 * 2 ^ k2) p2 (q2 * 2 ^ k2)
                    ltac:(nia) ltac:(nia) ltac:(nia)) as X.
      rewrite rne_div_exact in X by nia. exact X. }
    assert (C : 2 ^ 53 * 2 ^ k1 <= 2 ^ 52 * 2 ^ k2).
    { replace k2 with ((k2 - k1 - 1) + 1 + k1) by lia.
      rewrite !Z.pow_add_r by lia.
      assert (0 < 2 ^ (k2 - k1 - 1)) by (apply Z.pow_pos_nonneg; lia).
      change (2 ^ 53) with (2 ^ 52 * 2). change (2 ^ 1) with 2. nia. }
    nia.
Qed.

Lemma runb_nonneg p q : 0 < q -> 0 <= p -> 0 <= runb p q.
Proof.
  intros Hq Hp. unfold runb. pose proof (rexp_nonneg p q).
  assert (0 < 2 ^ rexp p q) by (apply Z.pow_pos_nonneg; lia).
  apply Z.mul_nonneg_nonneg; [|lia].
  pose proof (rne_div_mono (0 * (q * 2 ^ rexp p q)) (q * 2 ^ rexp p q) p (q * 2 ^ rexp p q)
                ltac:(nia) ltac:(nia) ltac:(nia)) as X.
  rewrite rne_div_exact in X by nia. exact X.
Qed.

Lemma runb_mono p1 q1 p2 q2 :
  0 < q1 -> 0 < q2 -> p1 * q2 <= p2 * q1 -> runb p1 q1 <= runb p2 q2.
Proof.
  intros H1 H2 Hle.
  destruct (Z_le_gt_dec 0 p1) as [Hp1|Hp1].
  - now apply runb_mono_nonneg.
  - destruct (Z_le_gt_dec 0 p2) as [Hp2|Hp2].
    + pose proof (runb_nonneg p2 q2 H2 Hp2).
      pose proof (runb_nonneg (- p1) q1 H1 ltac:(lia)) as Hn.
      rewrite runb_opp in Hn by assumption. lia.
    + pose proof (runb_mono_nonneg (- p2) q2 (- p1) q1 H2 H1 ltac:(lia) ltac:(nia)) as Hn.
      rewrite !runb_opp in Hn by assumption. lia.
Qed.

Lemma rne_div_1 p : rne_div p 1 = p.
Proof. rewrite <- (Z.mul_1_r p) at 1. apply rne_div_exact. lia. Qed.

Lemma runb_double n : runb (2 * n) 1 = 2 * runb n 1.
Proof.
  destruct (Z.eq_dec n 0) as [->|Hn]; [reflexivity|].
  unfold runb, rexp. rewrite !Z.div_1_r, !Z.mul_1_l.
  rewrite Z.abs_mul. change (Z.abs 2) with 2.
  rewrite Z.log2_double by lia.
  set (l := Z.log2 (Z.abs n)).
  assert (0 <= l) by apply Z.log2_nonneg.
  destruct (Z_lt_le_dec l 52) as [Hs|Hb].
  - replace (Z.max 0 (Z.succ l - 52)) with 0 by lia.
    replace (Z.max 0 (l - 52)) with 0 by lia.
    change (2 ^ 0) with 1. rewrite !rne_div_1. lia.
  - replace (Z.max 0 (Z.succ l - 52)) with (1 + (l - 52)) by lia.
    replace (Z.max 0 (l - 52)) with (l - 52) by lia.
    rewrite Z.pow_add_r by lia. change (2 ^ 1) with 2.
    assert (0 < 2 ^ (l - 52)) by (apply Z.pow_pos_nonneg; lia).
    rewrite rne_div_scale by lia. lia.
Qed.

Lemma clip_fin v n : clip v = FFin n → v = n ∧ Z.abs n < huge.
Proof.
  unfold clip. destruct (Z.ltb_spec (Z.abs v) huge); intros E; inversion E; subst; auto.
Qed.

Lemma fl_valid_runb n : fl_valid (FFin n) → runb n 1 = n.
Proof. intros H. apply clip_fin in H. tauto. Qed.

Lemma units_pos : 0 < units.
Proof. reflexivity. Qed.

Lemma f_2_units : f_2 = FFin (units * 2).
Proof. vm_compute. reflexivity. Qed.

Lemma fl_div_finite x d :
  d ≠ 0 →
  fl_div x (FFin d) =
    Some match x with
         | FNaN => FNaN
         | FInf a => FInf (xorb a (d <? 0))
         | FFin n => round_q (Z.sgn d * n * units) (Z.abs d)
         end.
Proof. destruct d; [congruence|reflexivity|reflexivity]. Qed.

(** The midpoint of two doubles, as the code computes it, never leaves the
    interval they span. *)
Lemma half_sum_between a b n :
  fl_valid a → fl_valid b → fl_leb a b = true →
  half_sum a b = Ok (FFin n) →
  fl_leb a (FFin n) = true ∧ fl_leb (FFin n) b = true.
Proof.
  intros Va Vb Hab. unfold half_sum. rewrite f_2_units.
  pose proof units_pos as HU.
  rewrite fl_div_finite by lia.
  rewrite Z.sgn_pos, Z.abs_eq by lia.
  set (U := units) in *. clearbody U.
  destruct a as [| |x], b as [| |y]; simpl in Hab |- *;
    try discriminate; try (destruct neg; discriminate);
    try (destruct neg, neg0; discriminate).
  destruct (round_q (x + y) 1) as [| |sn] eqn:Es; try discriminate.
  intros E. injection E as E.
  rewrite Z.mul_1_l in E.
  apply clip_fin in Es as [Es _]. apply clip_fin in E as [E _].
  rewrite (Z.mul_comm sn U) in E. rewrite runb_scale in E by lia.
  apply fl_valid_runb in Va, Vb.
  apply Z.leb_le in Hab.
  pose proof (runb_double x) as Dx. pose proof (runb_double y) as Dy.
  rewrite Va in Dx. rewrite Vb in Dy.
  pose proof (runb_mono (2 * x) 1 (x + y) 1 ltac:(lia) ltac:(lia) ltac:(lia)) as L1.
  pose proof (runb_mono (x + y) 1 (2 * y) 1 ltac:(lia) ltac:(lia) ltac:(lia)) as L2.
  rewrite Es in L1, L2.
  pose proof (runb_mono (2 * x) (2 * 1) sn 2 ltac:(lia) ltac:(lia) ltac:(lia)) as M1.
  pose proof (runb_mono sn 2 (2 * y) (2 * 1) ltac:(lia) ltac:(lia) ltac:(lia)) as M2.
  rewrite runb_scale in M1, M2 by lia.
  rewrite Va in M1. rewrite Vb in M2. rewrite E in M1, M2.
  split; apply Z.leb_le; assumption.
Qed.

(* --------------------------------------------------------------------- *)
(** ** bbox_centroid                                                      *)
(* --------------------------------------------------------------------- *)

Lemma is_finite_FFin x : is_finite x = true → ∃ n, x = FFin n.
Proof. destruct x; try discriminate. eauto. Qed.

Lemma range_bounds_finite :
  ∃ a b c d, f_m90 = FFin a ∧ f_90 = FFin b ∧ f_m180 = FFin c ∧ f_180 = FFin d.
Proof. unfold f_m90, f_90, f_m180, f_180. eauto 10. Qed.

Lemma in_range_finite lat lon :
  in_range lat lon = true → ∃ n m, lat = FFin n ∧ lon = FFin m.
Proof.
  unfold in_range.
  destruct range_bounds_finite as (a & b & c & d & -> & -> & -> & ->).
  intros H. repeat (apply andb_prop in H as [H ?]).
  destruct lat as [|[]|n], lon as [|[]|m]; simpl in *; try discriminate.
  eauto.
Qed.

Lemma half_sum_ok a b : ∃ m, half_sum a b = Ok m.
Proof.
  unfold half_sum. rewrite f_2_units.
  pose proof units_pos as HU.
  rewrite fl_div_finite by lia. eauto.
Qed.

Section BboxCentroid.
Context `{rt : PyRuntime}.

Lemma py_float_raises v e :
  py_float v = Raise e → e = ValueError ∨ e = TypeError ∨ e = OverflowError.
Proof.
  destruct v; simpl; repeat case_match; intros [= <-]; auto.
Qed.

Lemma mapM_raise {A B} (f : A → result B) l :
  Exists (λ v, ∃ e, f v = Raise e) l →
  ∃ v e, v ∈ l ∧ f v = Raise e ∧ mapM f l = Raise e.
Proof.
  induction l as [|x l IH]; intros Hex; [inversion Hex|].
  simpl. destruct (f x) as [y|e] eqn:Ex.
  - inversion Hex as [? ? [e He]|? ? Hl]; subst; [congruence|].
    destruct (IH Hl) as (v & e & Hin & Hv & Hm).
    exists v, e. rewrite Hm. simpl. split; [by right|done].
  - exists x, e. simpl. split; [by left|done].
Qed.

Lemma bbox_centroid_arity l :
  length l ≠ 4%nat → bbox_centroid (VList l) = Ok None.
Proof.
  intros Hlen. unfold bbox_centroid. simpl truthy.
  case_bool_decide as Hnil; [reflexivity|]. simpl.
  destruct (Z.eqb_spec (Z.of_nat (length l)) 4) as [E|NE]; [lia|reflexivity].
Qed.

Lemma bbox_centroid_four a b c d :
  bbox_centroid (VList [a; b; c; d]) =
  try_except
    (vals ← mapM py_float [a; b; c; d];
     match vals with
     | [min_lon; min_lat; max_lon; max_lat] =>
         lat ← half_sum min_lat max_lat;
         lon ← half_sum min_lon max_lon;
         if in_range lat lon then Ok (Some (lat, lon)) else Ok None
     | _ => Raise ValueError
     end)
    (Ok None).
Proof. reflexivity. Qed.
Lemma mapM_first_raise {A B} (f : A → result B) l1 v l2 e :
  Forall (λ x, ∃ y, f x = Ok y) l1 → f v = Raise e →
  mapM f (l1 ++ v :: l2) = Raise e.
Proof.
  intros Hl1 Hv. induction Hl1 as [|x l1 [y Hy] _ IH]; cbn [app mapM mbind result_bind].
  - by rewrite Hv.
  - by rewrite Hy, IH.
Qed.

Lemma bbox_centroid_first_refused l1 v l2 e :
  length (l1 ++ v :: l2) = 4%nat →
  Forall (λ x, ∃ f, py_float x = Ok f) l1 → py_float v = Raise e →
  bbox_centroid (VList (l1 ++ v :: l2))
  = if except_value_type e then Ok None else Raise e.
Proof.
  intros Hlen Hl1 Hv.
  pose proof (mapM_first_raise py_float l1 v l2 e Hl1 Hv) as Hm.
  destruct (l1 ++ v :: l2) as [|a [|b [|c [|d [|]]]]]; try discriminate.
  rewrite bbox_centroid_four, Hm. reflexivity.
Qed.
End BboxCentroid.

(** C5, as the code has it.  On a list of four values that [float()]
    accepts, [bbox_centroid] computes lat = (minLat+maxLat)/2 and
    lon = (minLon+maxLon)/2 in double arithmetic and returns that point
    exactly when it passes the range check, None otherwise; on a list of
    another length it returns None, and so it does on a list of four
    when the first value [float()] refuses is refused with ValueError or
    TypeError; when the box is ordered and its corners are doubles, the
    returned point lies inside it.  But when the first value [float()]
    refuses is an int beyond the doubles, the OverflowError, which
    [except (ValueError, TypeError)] does not catch, leaves the
    function. *)
Theorem bbox_centroid_correct `{rt : PyRuntime} :
  (∀ l, length l ≠ 4%nat → bbox_centroid (VList l) = Ok None) ∧
  (∀ l, length l = 4%nat →
        Forall (λ v, py_float v ≠ Raise OverflowError) l →
        Exists (λ v, ∃ e, py_float v = Raise e) l →
        bbox_centroid (VList l) = Ok None) ∧
  (∀ a b c d min_lon min_lat max_lon max_lat,
     py_float a = Ok min_lon → py_float b = Ok min_lat →
     py_float c = Ok max_lon → py_float d = Ok max_lat →
     ∃ lat lon,
       half_sum min_lat max_lat = Ok lat ∧
       half_sum min_lon max_lon = Ok lon ∧
       bbox_centroid (VList [a; b; c; d]) =
         Ok (if in_range lat lon then Some (lat, lon) else None) ∧
       (fl_valid min_lon → fl_valid min_lat → fl_valid max_lon → fl_valid max_lat →
        fl_leb min_lat max_lat = true → fl_leb min_lon max_lon = true →
        in_range lat lon = true →
        fl_leb min_lat lat = true ∧ fl_leb lat max_lat = true ∧
        fl_leb min_lon lon = true ∧ fl_leb lon max_lon = true)) ∧
  (∀ l1 v l2 e,
     length (l1 ++ v :: l2) = 4%nat →
     Forall (λ x, ∃ f, py_float x = Ok f) l1 →
     py_float v = Raise e → e = ValueError ∨ e = TypeError →
     bbox_centroid (VList (l1 ++ v :: l2)) = Ok None) ∧
  (∀ l1 z l2,
     length (l1 ++ VInt z :: l2) = 4%nat →
     Forall (λ x, ∃ f, py_float x = Ok f) l1 →
     fl_of_int z = None →
     bbox_centroid (VList (l1 ++ VInt z :: l2)) = Raise OverflowError).
Proof.
  split; [exact bbox_centroid_arity|split; [|split; [|split]]].
  - intros l Hlen Hno Hex.
    destruct l as [|a [|b [|c [|d [|]]]]]; try discriminate.
    rewrite bbox_centroid_four.
    destruct (mapM_raise py_float _ Hex) as (v & e & Hin & Hv & ->).
    simpl. rewrite Forall_forall in Hno. specialize (Hno v Hin).
    destruct (py_float_raises v e Hv) as [-> | [-> | ->]]; [reflexivity|reflexivity|congruence].
  - intros a b c d min_lon min_lat max_lon max_lat Ha Hb Hc Hd.
    destruct (half_sum_ok min_lat max_lat) as [lat Hlat].
    destruct (half_sum_ok min_lon max_lon) as [lon Hlon].
    exists lat, lon. split; [done|split; [done|split]].
    + rewrite bbox_centroid_four. cbn [mapM mbind result_bind].
      rewrite Ha, Hb, Hc, Hd. cbn [mbind result_bind].
      rewrite Hlat, Hlon. cbn [mbind result_bind].
      by destruct (in_range lat lon).
    + intros V1 V2 V3 V4 Hlat_le Hlon_le Hr.
      destruct (in_range_finite _ _ Hr) as (n & m & -> & ->).
      destruct (half_sum_between _ _ _ V2 V4 Hlat_le Hlat).
      destruct (half_sum_between _ _ _ V1 V3 Hlon_le Hlon).
      auto.
  - intros l1 v l2 e Hlen Hl1 Hv He.
    rewrite (bbox_centroid_first_refused l1 v l2 e Hlen Hl1 Hv).
    by destruct He as [-> | ->].
  - intros l1 z l2 Hlen Hl1 Hz.
    rewrite (bbox_centroid_first_refused l1 (VInt z) l2 OverflowError Hlen Hl1);
      [reflexivity|].
    cbn [py_float]. by rewrite Hz.
Qed.

(** The box of scenario B: the centroid is (41.0, -9.0), inside the box. *)
Lemma bbox_centroid_correct_witness :
  bbox_centroid (rt := ascii_rt) (VList [VInt (-10); VInt 40; VInt (-8); VInt 42])
    = Ok (Some (fl_lit 41 0, fl_lit (-9) 0)) ∧
  fl_leb (fl_lit 40 0) (fl_lit 41 0) = true ∧ fl_leb (fl_lit 41 0) (fl_lit 42 0) = true ∧
  fl_leb (fl_lit (-10) 0) (fl_lit (-9) 0) = true ∧
  fl_leb (fl_lit (-9) 0) (fl_lit (-8) 0) = true.
Proof.
  destruct (proj1 (proj2 (proj2 (bbox_centroid_correct (rt := ascii_rt))))
              (VInt (-10)) (VInt 40) (VInt (-8)) (VInt 42)
              (fl_lit (-10) 0) (fl_lit 40 0) (fl_lit (-8) 0) (fl_lit 42 0))
    as (lat & lon & Hlat & Hlon & Hbox & Hin);
    try (vm_compute; reflexivity).
  assert (lat = fl_lit 41 0) as ->
    by (vm_compute in Hlat; injection Hlat as <-; vm_compute; reflexivity).
  assert (lon = fl_lit (-9) 0) as ->
    by (vm_compute in Hlon; injection Hlon as <-; vm_compute; reflexivity).
  split; [rewrite Hbox; vm_compute; reflexivity|].
  apply Hin; vm_compute; reflexivity.
Defined.

(** C5 fails as stated: a box of four numbers whose first is an int
    beyond the doubles has neither a midpoint nor None for an answer;
    the call raises OverflowError. *)
Lemma bbox_centroid_raises_on_huge_int :
  bbox_centroid (rt := ascii_rt) (VList [VInt (10 ^ 400); VInt 0; VInt 0; VInt 0])
  = Raise OverflowError.
Proof. vm_compute. reflexivity. Qed.


(* --------------------------------------------------------------------- *)
(** ** Running the resolver                                               *)
(* --------------------------------------------------------------------- *)

Section Runs.
Context `{rt : PyRuntime}.

Lemma bind_run {A B} (m : M A) (f : A → M B) w :
  (m ≫= f) w =
  match m w with
  | (Ok a, w') => f a w'
  | (Raise e, w') => (Raise e, w')
  end.
Proof. reflexivity. Qed.

Lemma ret_run {A} (a : A) w : (mret a : M A) w = (Ok a, w).
Proof. reflexivity. Qed.

Lemma lift_run {A} (r : result A) w : lift r w = (r, w).
Proof. reflexivity. Qed.

Lemma dict_get_run a k dflt d h cs :
  dict_get a k dflt (World (<[a := d]> h) cs)
  = (Ok (default dflt (d !! k)), World (<[a := d]> h) cs).
Proof. unfold dict_get. cbn [heap]. by rewrite lookup_total_insert_eq. Qed.

Lemma dict_set_run a k v d h cs :
  dict_set a k v (World (<[a := d]> h) cs)
  = (Ok (), World (<[a := <[k := v]> d]> h) cs).
Proof.
  unfold dict_set. cbn [heap calls].
  by rewrite lookup_total_insert_eq, insert_insert_eq.
Qed.

Lemma set_location_run a lat lon method conf notes d h cs :
  set_location a lat lon method conf notes (World (<[a := d]> h) cs)
  = (Ok (), World (<[a := located d lat lon method conf notes]> h) cs).
Proof.
  unfold set_location.
  repeat first [rewrite bind_run | rewrite dict_set_run | progress cbv beta iota].
  reflexivity.
Qed.

Lemma call_find_country_run gaz s h cs :
  call_find_country gaz s (World h cs)
  = (Gazetteer.find_country gaz s, World h (cs ++ [FindCountry s])).
Proof. reflexivity. Qed.

Lemma call_find_city_run gaz cc adm cty h cs :
  call_find_city gaz cc adm cty (World h cs)
  = (Gazetteer.find_city gaz cc adm cty, World h (cs ++ [FindCity cc adm cty])).
Proof. reflexivity. Qed.

Lemma call_find_admin1_run gaz cc adm h cs :
  call_find_admin1 gaz cc adm (World h cs)
  = (Gazetteer.find_admin1 gaz cc adm, World h (cs ++ [FindAdmin1 cc adm])).
Proof. reflexivity. Qed.

End Runs.

(** Stepping through the monadic code. *)
Ltac mrun :=
  repeat first
    [ rewrite bind_run | rewrite ret_run | rewrite lift_run
    | rewrite dict_get_run | rewrite dict_set_run | rewrite set_location_run
    | rewrite call_find_country_run | rewrite call_find_city_run
    | rewrite call_find_admin1_run
    | progress cbv beta iota ].

Ltac quiet := exists []; rewrite app_nil_r; split; [constructor|]; mrun; auto.

Ltac no_country :=
  repeat (apply Forall_app; split); first [assumption | constructor].

Ltac leaf :=
  rewrite <- ?app_assoc; eexists;
  split; [|do 5 eexists; split; [eassumption|reflexivity]];
  no_country.

Ltac tier lem :=
  let tr := fresh "tr" in let E := fresh "E" in let e := fresh "e" in
  let Hs := fresh "Hs" in let Hn := fresh "Hn" in
  destruct lem as (tr & Hn & [E | [(e & [] & E) | (? & ? & ? & ? & ? & Hs & E)]]);
  rewrite E; mrun; [|leaf].

Section Tiers.
Context `{rt : PyRuntime}.

Lemma tier_provided_point_run a d h cs :
  tier_provided_point a (World (<[a := d]> h) cs) =
  match provided_point d with
  | Ok (Some (lat, lon)) =>
      (Ok true,
       World (<[a := located d lat lon (u "provided_point") f_1_0
                        (u "Coordinates provided in source data")]> h) cs)
  | Ok None => (Ok false, World (<[a := d]> h) cs)
  | Raise e => (Raise e, World (<[a := d]> h) cs)
  end.
Proof.
  unfold tier_provided_point, provided_point. mrun.
  destruct (negb (is_none (default VNone (d !! u "lat")))
            && negb (is_none (default VNone (d !! u "lon")))); [|reflexivity].
  unfold try_except_M, try_except. mrun.
  destruct (py_float (default VNone (d !! u "lat"))) as [la|e]; cbn [mbind result_bind]; mrun.
  - destruct (py_float (default VNone (d !! u "lon"))) as [lo|e]; cbn [mbind result_bind]; mrun.
    + destruct (in_range la lo); mrun; reflexivity.
    + destruct e; reflexivity.
  - destruct e; reflexivity.
Qed.

Lemma tier_bbox_run a d h cs :
  tier_bbox a (World (<[a := d]> h) cs) =
  match bbox_point d with
  | Ok (Some (lat, lon)) =>
      (Ok true,
       World (<[a := located d lat lon (u "bbox_centroid") f_0_8
                        (u "Centroid of bounding box")]> h) cs)
  | Ok None => (Ok false, World (<[a := d]> h) cs)
  | Raise e => (Raise e, World (<[a := d]> h) cs)
  end.
Proof.
  unfold tier_bbox, bbox_point. mrun.
  destruct (truthy (default VNone (d !! u "bbox"))); [|reflexivity].
  mrun. destruct (bbox_centroid (default VNone (d !! u "bbox"))) as [[[lat lon]|]|e];
    mrun; reflexivity.
Qed.

Lemma get_stripped_run a k d h cs :
  get_stripped a k (World (<[a := d]> h) cs)
  = (signal_text d k, World (<[a := d]> h) cs).
Proof. unfold get_stripped, signal_text. mrun. reflexivity. Qed.

(** The finders never raise on the strings the resolver passes. *)
Lemma normalize_str s :
  Gazetteer._normalize (VStr s)
  = Ok (if bool_decide (s = []) then [] else Gazetteer.normalize_text s).
Proof. unfold Gazetteer._normalize. cbn [truthy]. by case_bool_decide. Qed.

Lemma find_country_total gaz s : ∃ r, Gazetteer.find_country gaz s = Ok r.
Proof.
  unfold Gazetteer.find_country. rewrite normalize_str.
  repeat case_match; eauto.
Qed.

Lemma find_admin1_total gaz cc adm : ∃ r, Gazetteer.find_admin1 gaz cc adm = Ok r.
Proof.
  unfold Gazetteer.find_admin1. rewrite normalize_str.
  repeat case_match; eauto.
Qed.

Lemma find_city_total gaz cc adm cty : ∃ r, Gazetteer.find_city gaz cc adm cty = Ok r.
Proof.
  unfold Gazetteer.find_city. rewrite normalize_str.
  destruct adm as [adm|]; cbn [cell_val]; [rewrite normalize_str|];
    repeat first [progress cbn [mbind result_bind truthy] | case_match]; eauto.
Qed.

Lemma scored_1_0 : scored f_1_0.
Proof. split; vm_compute; reflexivity. Qed.
Lemma scored_0_8 : scored f_0_8.
Proof. split; vm_compute; reflexivity. Qed.
Lemma scored_0_72 : scored f_0_72.
Proof. split; vm_compute; reflexivity. Qed.
Lemma scored_0_7 : scored f_0_7.
Proof. split; vm_compute; reflexivity. Qed.
Lemma scored_0_6 : scored f_0_6.
Proof. split; vm_compute; reflexivity. Qed.

Lemma city_confidence_eq adm pop :
  fl_min
    (let c := f_0_75 in
     let c := if truthy (VStr adm) then fl_add c f_0_05 else c in
     if pop >? 1000000 then fl_add c f_0_05 else c)
    f_1_0
  = city_confidence adm pop.
Proof.
  unfold city_confidence.
  destruct (truthy (VStr adm)), (pop >? 1000000); vm_compute; reflexivity.
Qed.

Lemma scored_city adm pop : scored (city_confidence adm pop).
Proof.
  unfold city_confidence.
  destruct (truthy (VStr adm)), (pop >? 1000000); split; vm_compute; reflexivity.
Qed.

Lemma tier_provided_point_outcome a d h cs :
  tier_outcome (λ e, provided_point d = Raise e) a d h cs
    (tier_provided_point a (World (<[a := d]> h) cs)).
Proof.
  rewrite tier_provided_point_run. exists []. rewrite app_nil_r. split; [constructor|].
  destruct (provided_point d) as [[[lat lon]|]|e]; eauto 10 using scored_1_0.
Qed.

Lemma tier_bbox_outcome a d h cs :
  tier_outcome (λ e, bbox_point d = Raise e) a d h cs
    (tier_bbox a (World (<[a := d]> h) cs)).
Proof.
  rewrite tier_bbox_run. exists []. rewrite app_nil_r. split; [constructor|].
  destruct (bbox_point d) as [[[lat lon]|]|e]; eauto 10 using scored_0_8.
Qed.

Lemma tier_city_run a gaz cd adm cty d h cs c :
  truthy (VStr cty) = true →
  Gazetteer.find_city gaz (c_iso2 cd) (Some adm) cty = Ok c →
  tier_city a gaz (Some cd) adm cty (World (<[a := d]> h) cs) =
  match c with
  | Some c =>
      (Ok true,
       World (<[a := located d (ci_lat c) (ci_lon c) (u "city_geocode")
                        (city_confidence adm (ci_pop c))
                        (u "City: " ++ format_cell (ci_name c) ++ u ", "
                           ++ format_cell (c_name cd))]> h)
             (cs ++ [FindCity (c_iso2 cd) (Some adm) cty]))
  | None =>
      (Ok false, World (<[a := d]> h) (cs ++ [FindCity (c_iso2 cd) (Some adm) cty]))
  end.
Proof.
  intros Hc Hf. unfold tier_city. rewrite Hc. mrun. rewrite Hf.
  destruct c as [c|]; mrun; [|reflexivity].
  rewrite city_confidence_eq. reflexivity.
Qed.

Lemma tier_city_outcome a gaz cd adm cty d h cs :
  tier_outcome (λ _, False) a d h cs
    (tier_city a gaz cd adm cty (World (<[a := d]> h) cs)).
Proof.
  destruct cd as [cd|]; [|unfold tier_city; quiet].
  destruct (truthy (VStr cty)) eqn:Hc; [|unfold tier_city; rewrite Hc; quiet].
  destruct (find_city_total gaz (c_iso2 cd) (Some adm) cty) as [c Hf].
  rewrite (tier_city_run _ _ _ _ _ _ _ _ _ Hc Hf).
  exists [FindCity (c_iso2 cd) (Some adm) cty]. split; [by repeat constructor|].
  destruct c as [c|]; [|auto].
  right; right. do 5 eexists. split; [apply scored_city|reflexivity].
Qed.

Lemma tier_place_name_outcome a gaz cd place d h cs :
  tier_outcome (λ _, False) a d h cs
    (tier_place_name a gaz cd place (World (<[a := d]> h) cs)).
Proof.
  unfold tier_place_name.
  destruct cd as [cd|]; [|quiet].
  destruct (truthy (VStr place) && str_contains 44 place); [|quiet].
  destruct (str_strip <$> str_split 44 place) as [|pc [|pa rest]]; [quiet|quiet|].
  mrun. exists [FindCity (c_iso2 cd) (Some pa) pc]. split; [by repeat constructor|].
  destruct (find_city_total gaz (c_iso2 cd) (Some pa) pc) as [[c|] ->]; mrun; auto.
  right; right. do 5 eexists. split; [apply scored_0_72|reflexivity].
Qed.

Lemma tier_admin1_outcome a gaz cd adm d h cs :
  tier_outcome (λ _, False) a d h cs
    (tier_admin1 a gaz cd adm (World (<[a := d]> h) cs)).
Proof.
  unfold tier_admin1.
  destruct cd as [cd|]; [|quiet].
  destruct (truthy (VStr adm)); [|quiet].
  mrun. exists [FindAdmin1 (c_iso2 cd) adm]. split; [by repeat constructor|].
  destruct (find_admin1_total gaz (c_iso2 cd) adm) as [[c|] ->]; mrun; auto.
  right; right. do 5 eexists. split; [apply scored_0_7|reflexivity].
Qed.

(** Country resolution does not depend on the heap, only appends to the
    trace, and never raises. *)
Lemma resolve_country_run gaz cc cn h cs :
  resolve_country gaz cc cn (World h cs)
  = (country_data gaz cc cn, World h (cs ++ country_calls gaz cc cn)).
Proof.
  unfold country_data, country_calls, resolve_country.
  destruct (truthy (VStr cc)); mrun.
  - destruct (Gazetteer.find_country gaz cc) as [cd|e]; mrun.
    + destruct (negb (bool_decide (is_Some cd)) && truthy (VStr cn)); mrun.
      * destruct (Gazetteer.find_country gaz cn); cbn [fst snd calls app];
          by rewrite <- app_assoc.
      * reflexivity.
    + reflexivity.
  - destruct (negb (bool_decide (is_Some None)) && truthy (VStr cn)); mrun.
    + destruct (Gazetteer.find_country gaz cn); reflexivity.
    + cbn [fst snd calls]. by rewrite app_nil_r.
Qed.

Lemma country_data_total gaz cc cn : ∃ cd, country_data gaz cc cn = Ok cd.
Proof.
  unfold country_data, resolve_country.
  destruct (truthy (VStr cc)); mrun.
  - destruct (find_country_total gaz cc) as [cd ->]. mrun.
    destruct (negb (bool_decide (is_Some cd)) && truthy (VStr cn)); mrun.
    + destruct (find_country_total gaz cn) as [cd' ->]. eauto.
    + eauto.
  - destruct (negb (bool_decide (is_Some None)) && truthy (VStr cn)); mrun.
    + destruct (find_country_total gaz cn) as [cd' ->]. eauto.
    + eauto.
Qed.

Lemma dict_copy_run rec h cs :
  dict_copy rec (World h cs)
  = (Ok (fresh (dom h)), World (<[fresh (dom h) := h !!! rec]> h) cs).
Proof. reflexivity. Qed.

(** Up to the text fields: tiers 1 and 2, then lines 64-68, then the
    rest. *)
Lemma resolve_location_head rec gaz h cs :
  let a := fresh (dom h) in
  let d0 := unlocated (h !!! rec) in
  resolve_location rec gaz (World h cs) =
  match provided_point d0 with
  | Raise e => (Raise e, World (<[a := d0]> h) cs)
  | Ok (Some (lat, lon)) =>
      (Ok a, World (<[a := located d0 lat lon (u "provided_point") f_1_0
                             (u "Coordinates provided in source data")]> h) cs)
  | Ok None =>
      match bbox_point d0 with
      | Raise e => (Raise e, World (<[a := d0]> h) cs)
      | Ok (Some (lat, lon)) =>
          (Ok a, World (<[a := located d0 lat lon (u "bbox_centroid") f_0_8
                                 (u "Centroid of bounding box")]> h) cs)
      | Ok None =>
          match signal_texts d0 with
          | Raise e => (Raise e, World (<[a := d0]> h) cs)
          | Ok (cc, cn, adm, cty, place) =>
              resolve_tail a gaz cc cn adm cty place (World (<[a := d0]> h) cs)
          end
      end
  end.
Proof.
  intros a d0. unfold resolve_location.
  rewrite bind_run, dict_copy_run. fold a. mrun. fold (unlocated (h !!! rec)). fold d0.
  rewrite tier_provided_point_run.
  destruct (provided_point d0) as [[[lat lon]|]|e]; mrun; try reflexivity.
  rewrite tier_bbox_run.
  destruct (bbox_point d0) as [[[lat lon]|]|e]; mrun; try reflexivity.
  unfold signal_texts.
  rewrite !get_stripped_run.
  destruct (signal_text d0 (u "country_code")) as [cc|e]; mrun; [|reflexivity].
  rewrite !get_stripped_run.
  destruct (signal_text d0 (u "country")) as [cn|e]; mrun; [|reflexivity].
  rewrite !get_stripped_run.
  destruct (signal_text d0 (u "admin1")) as [adm|e]; mrun; [|reflexivity].
  rewrite !get_stripped_run.
  destruct (signal_text d0 (u "city")) as [cty|e]; mrun; [|reflexivity].
  rewrite !get_stripped_run.
  destruct (signal_text d0 (u "place_name")) as [place|e]; mrun; reflexivity.
Qed.

(** Lines 70-126 never raise: once a country is known, some tier locates
    the record, and without one the record stays unresolved after the
    country lookups alone. *)
Lemma resolve_tail_run a gaz cc cn adm cty place d h cs cd :
  country_data gaz cc cn = Ok cd →
  match cd with
  | None =>
      resolve_tail a gaz cc cn adm cty place (World (<[a := d]> h) cs)
      = (Ok a, World (<[a := <[u "loc_notes" := VStr (u "Could not resolve location")]> d]> h)
                     (cs ++ country_calls gaz cc cn))
  | Some _ =>
      ∃ later,
        Forall (λ c, is_find_country c = false) later ∧
        ∃ lat lon m c n,
          scored c ∧
          resolve_tail a gaz cc cn adm cty place (World (<[a := d]> h) cs)
          = (Ok a, World (<[a := located d lat lon m c n]> h)
                         (cs ++ country_calls gaz cc cn ++ later))
  end.
Proof.
  intros Hcd. unfold resolve_tail.
  rewrite bind_run, resolve_country_run, Hcd. mrun.
  destruct cd as [cd|].
  - tier (tier_city_outcome a gaz (Some cd) adm cty d h (cs ++ country_calls gaz cc cn)).
    tier (tier_place_name_outcome a gaz (Some cd) place d h
            ((cs ++ country_calls gaz cc cn) ++ tr)).
    tier (tier_admin1_outcome a gaz (Some cd) adm d h
            (((cs ++ country_calls gaz cc cn) ++ tr) ++ tr0)).
    unfold tier_country. mrun. pose proof scored_0_6.
    rewrite <- (app_nil_r (_ ++ tr1)). leaf.
  - unfold tier_city, tier_place_name, tier_admin1, tier_country. mrun. reflexivity.
Qed.

(** Three ways a run can end: an exception from a malformed field with the
    copy only initialised, the unresolved result, or a located result. *)
Lemma resolve_location_shape rec gaz h cs :
  let a := fresh (dom h) in
  let d0 := unlocated (h !!! rec) in
  ∃ tr,
    (∃ e, (provided_point d0 = Raise e ∨ bbox_point d0 = Raise e
           ∨ signal_texts d0 = Raise e) ∧
          resolve_location rec gaz (World h cs)
          = (Raise e, World (<[a := d0]> h) (cs ++ tr))) ∨
    resolve_location rec gaz (World h cs)
      = (Ok a, World (<[a := <[u "loc_notes" := VStr (u "Could not resolve location")]> d0]> h)
                     (cs ++ tr)) ∨
    (∃ lat lon m c n,
        scored c ∧
        resolve_location rec gaz (World h cs)
        = (Ok a, World (<[a := located d0 lat lon m c n]> h) (cs ++ tr))).
Proof.
  intros a d0. rewrite resolve_location_head. fold a d0.
  destruct (provided_point d0) as [[[lat lon]|]|e] eqn:E1.
  { exists []. rewrite app_nil_r. right; right. eauto 10 using scored_1_0. }
  2:{ exists []. rewrite app_nil_r. left. eauto. }
  destruct (bbox_point d0) as [[[lat lon]|]|e] eqn:E2.
  { exists []. rewrite app_nil_r. right; right. eauto 10 using scored_0_8. }
  2:{ exists []. rewrite app_nil_r. left. eauto. }
  destruct (signal_texts d0) as [[[[[cc cn] adm] cty] place]|e] eqn:E3.
  2:{ exists []. rewrite app_nil_r. left. eauto. }
  destruct (country_data_total gaz cc cn) as [cd Hcd].
  pose proof (resolve_tail_run a gaz cc cn adm cty place d0 h cs cd Hcd) as Ht.
  destruct cd as [cd|].
  - destruct Ht as (later & _ & lat & lon & m & c & n & Hs & E).
    exists (country_calls gaz cc cn ++ later). rewrite E. eauto 10.
  - exists (country_calls gaz cc cn). rewrite Ht. eauto.
Qed.
End Tiers.

(** The keys of the record are told apart by computation. *)
Ltac key_ne := let E := fresh in intros E; vm_compute in E; discriminate E.

Lemma unlocated_lookup d k :
  k ≠ u "loc_method" → k ≠ u "loc_confidence" → k ≠ u "loc_notes" →
  unlocated d !! k = d !! k.
Proof. intros. unfold unlocated. by rewrite !lookup_insert_ne. Qed.

Lemma located_lookup d lat lon m c n k :
  k ∉ location_keys → located d lat lon m c n !! k = d !! k.
Proof.
  unfold location_keys. rewrite !not_elem_of_cons. intros (? & ? & ? & ? & ? & _).
  unfold located. by rewrite !lookup_insert_ne.
Qed.

Lemma located_fields d lat lon m c n :
  located d lat lon m c n !! u "lat" = Some (VFloat lat) ∧
  located d lat lon m c n !! u "lon" = Some (VFloat lon) ∧
  located d lat lon m c n !! u "loc_method" = Some (VStr m) ∧
  located d lat lon m c n !! u "loc_confidence" = Some (VFloat c) ∧
  located d lat lon m c n !! u "loc_notes" = Some (VStr n).
Proof.
  unfold located.
  repeat split;
    repeat first [ rewrite lookup_insert_eq; reflexivity
                 | rewrite lookup_insert_ne by key_ne ].
Qed.

Lemma unlocated_fields d :
  unlocated d !! u "loc_method" = Some VNone ∧
  unlocated d !! u "loc_confidence" = Some (VFloat f_0_0) ∧
  unlocated d !! u "loc_notes" = Some (VStr []) ∧
  unlocated d !! u "lat" = d !! u "lat" ∧
  unlocated d !! u "lon" = d !! u "lon".
Proof.
  unfold unlocated.
  repeat split;
    repeat first [ rewrite lookup_insert_eq; reflexivity
                 | rewrite lookup_insert_ne by key_ne ]; reflexivity.
Qed.

Lemma scored_bounds c :
  scored c → fl_leb f_0_0 c = true ∧ fl_leb c f_1_0 = true ∧ fl_eqb c f_0_0 = false.
Proof.
  intros [H0 H1]. split; [|split; [exact H1|]].
  - destruct c as [|[]|n]; try discriminate; try reflexivity.
    unfold f_0_0 in *. cbn [fl_ltb fl_leb] in *. lia.
  - destruct c as [|[]|n]; try discriminate; try reflexivity.
    unfold f_0_0 in *. cbn [fl_ltb fl_eqb] in *. lia.
Qed.

(** C1. The record a run returns carries a confidence between 0.0 and 1.0,
    and that confidence is 0.0 exactly when the method is None. *)
Theorem resolve_location_confidence `{rt : PyRuntime} rec gaz w r w' :
  resolve_location rec gaz w = (Ok r, w') →
  ∃ d' conf,
    heap w' !! r = Some d' ∧
    d' !! u "loc_confidence" = Some (VFloat conf) ∧
    fl_leb f_0_0 conf = true ∧ fl_leb conf f_1_0 = true ∧
    (fl_eqb conf f_0_0 = true ↔ d' !! u "loc_method" = Some VNone).
Proof.
  destruct w as [h cs]. intros Hrun.
  destruct (resolve_location_shape rec gaz h cs)
    as (tr & [(e & _ & E) | [E | (lat & lon & m & c & n & Hs & E)]]);
    rewrite E in Hrun; inversion Hrun; subst; clear Hrun.
  - exists (<[u "loc_notes" := VStr (u "Could not resolve location")]>
              (unlocated (h !!! rec))), f_0_0.
    cbn [heap]. split; [apply lookup_insert_eq|].
    destruct (unlocated_fields (h !!! rec)) as (Hm & Hc & _).
    rewrite !(lookup_insert_ne _ (u "loc_notes")) by key_ne. rewrite Hm, Hc.
    repeat split; vm_compute; congruence.
  - exists (located (unlocated (h !!! rec)) lat lon m c n), c.
    cbn [heap]. split; [apply lookup_insert_eq|].
    destruct (located_fields (unlocated (h !!! rec)) lat lon m c n) as (_ & _ & Hm & Hc & _).
    destruct (scored_bounds c Hs) as (? & ? & Hne).
    rewrite Hm, Hc, Hne. repeat split; auto; discriminate.
Qed.


(** A run on a concrete world, split into its result and final world. *)
Lemma run_pair `{rt : PyRuntime} {A} (m : M A) w r :
  (m w).1 = r → m w = (r, (m w).2).
Proof. intros <-. apply surjective_pairing. Qed.

(** Scenario D on the sample gazetteer. *)
Lemma resolve_location_confidence_witness :
  ∃ r w' d' conf,
    resolve_location (rt := ascii_rt) 1 sample_gaz
      (one_record [("country", VStr (u "Ruritania"))]) = (Ok r, w') ∧
    heap w' !! r = Some d' ∧
    d' !! u "loc_confidence" = Some (VFloat conf) ∧
    fl_leb f_0_0 conf = true ∧ fl_leb conf f_1_0 = true ∧
    (fl_eqb conf f_0_0 = true ↔ d' !! u "loc_method" = Some VNone).
Proof.
  pose proof (run_pair (rt := ascii_rt)
                (resolve_location (rt := ascii_rt) 1 sample_gaz)
                (one_record [("country", VStr (u "Ruritania"))]) (Ok 2%positive)) as E.
  specialize (E ltac:(vm_compute; reflexivity)).
  destruct (resolve_location_confidence _ _ _ _ _ E) as (d' & conf & H).
  exact (ex_intro _ _ (ex_intro _ _ (ex_intro _ d' (ex_intro _ conf (conj E H))))).
Defined.

(** C10. A run never changes an object that was on the heap, the input
    record among them: the record it returns is a newly allocated object,
    and every key other than lat, lon, loc_method, loc_confidence and
    loc_notes holds there what it holds in the input. *)
Theorem resolve_location_frame `{rt : PyRuntime} rec gaz w d :
  heap w !! rec = Some d →
  (∀ a' d', heap w !! a' = Some d' →
            heap (resolve_location rec gaz w).2 !! a' = Some d') ∧
  (∀ r, (resolve_location rec gaz w).1 = Ok r →
        heap w !! r = None ∧
        ∃ d', heap (resolve_location rec gaz w).2 !! r = Some d' ∧
              ∀ k, k ∉ location_keys → d' !! k = d !! k).
Proof.
  destruct w as [h cs]. cbn [heap]. intros Hrec.
  assert (Hfresh : h !! fresh (dom h) = None)
    by (apply not_elem_of_dom, is_fresh).
  assert (Hd : h !!! rec = d) by (by rewrite lookup_total_alt, Hrec).
  assert (Hkeys : ∀ k, k ∉ location_keys → unlocated d !! k = d !! k).
  { intros k. unfold location_keys. rewrite !not_elem_of_cons.
    intros (_ & _ & ? & ? & ? & _). by apply unlocated_lookup. }
  destruct (resolve_location_shape rec gaz h cs)
    as (tr & [(e & _ & E) | [E | (lat & lon & m & c & n & Hs & E)]]);
    rewrite E; cbn [fst snd heap]; rewrite Hd.
  - split; [|discriminate].
    intros a' d' Ha. rewrite lookup_insert_ne; [done|congruence].
  - split.
    + intros a' d' Ha. rewrite lookup_insert_ne; [done|congruence].
    + intros r [= <-]. split; [done|]. eexists. split; [apply lookup_insert_eq|].
      intros k Hk. rewrite lookup_insert_ne; [by apply Hkeys|].
      unfold location_keys in Hk. rewrite !not_elem_of_cons in Hk.
      destruct Hk as (_ & _ & _ & _ & Hn & _). congruence.
  - split.
    + intros a' d' Ha. rewrite lookup_insert_ne; [done|congruence].
    + intros r [= <-]. split; [done|]. eexists. split; [apply lookup_insert_eq|].
      intros k Hk. rewrite located_lookup by done. by apply Hkeys.
Qed.

(** A record with a bounding box and other keys; tier 2 locates it. *)
Lemma resolve_location_frame_witness :
  let w := one_record [("id", VStr (u "TW-1")); ("lat", VNone);
                       ("bbox", VList [VInt (-10); VInt 40; VInt (-8); VInt 42])] in
  heap (resolve_location (rt := ascii_rt) 1 sample_gaz w).2 !! 1%positive
    = heap w !! 1%positive ∧
  ∃ d', heap (resolve_location (rt := ascii_rt) 1 sample_gaz w).2 !! 2%positive = Some d' ∧
        d' !! u "id" = Some (VStr (u "TW-1")).
Proof.
  intros w.
  destruct (resolve_location_frame (rt := ascii_rt) 1 sample_gaz w
              (list_to_map [(u "id", VStr (u "TW-1")); (u "lat", VNone);
                 (u "bbox", VList [VInt (-10); VInt 40; VInt (-8); VInt 42])]))
    as [Hold Hnew]; [vm_compute; reflexivity|].
  split.
  - rewrite (Hold 1%positive _ eq_refl). reflexivity.
  - destruct (Hnew 2%positive ltac:(vm_compute; reflexivity)) as (_ & d' & Hd' & Hk).
    exists d'. split; [exact Hd'|].
    rewrite Hk; [vm_compute; reflexivity|].
    unfold location_keys. rewrite !not_elem_of_cons.
    repeat split; try key_ne. apply not_elem_of_nil.
Defined.

(* --------------------------------------------------------------------- *)
(** ** Small integers are doubles                                         *)
(* --------------------------------------------------------------------- *)

Lemma units_eq : units = 2 ^ 1074.
Proof. vm_compute. reflexivity. Qed.

Lemma huge_eq : huge = 2 ^ 2098.
Proof. vm_compute. reflexivity. Qed.

Lemma runb_small_int z : Z.abs z < 2 ^ 53 → runb (z * 2 ^ 1074) 1 = z * 2 ^ 1074.
Proof.
  assert (Hpos : ∀ z, 0 < z < 2 ^ 53 → runb (z * 2 ^ 1074) 1 = z * 2 ^ 1074).
  { clear z. intros z [Hz Hlt]. unfold runb, rexp.
    rewrite Z.div_1_r, Z.mul_1_l.
    assert (0 < 2 ^ 1074) by (apply Z.pow_pos_nonneg; lia).
    rewrite (Z.abs_eq (z * 2 ^ 1074)) by nia.
    rewrite Z.log2_mul_pow2 by lia.
    assert (Hl : 0 <= Z.log2 z < 53).
    { split; [apply Z.log2_nonneg|]. apply Z.log2_lt_pow2; lia. }
    replace (Z.max 0 (1074 + Z.log2 z - 52)) with (1022 + Z.log2 z) by lia.
    set (l := Z.log2 z) in *.
    replace 1074 with ((52 - l) + (1022 + l)) at 1 2 by lia.
    rewrite Z.pow_add_r by lia. rewrite Z.mul_assoc.
    rewrite rne_div_exact by (apply Z.pow_pos_nonneg; lia). reflexivity. }
  intros Hz. destruct (Z.lt_trichotomy z 0) as [Hn|[->|Hp]].
  - replace (z * 2 ^ 1074) with (- ((- z) * 2 ^ 1074)) by lia.
    rewrite runb_opp by lia. rewrite Hpos by lia. reflexivity.
  - reflexivity.
  - apply Hpos. lia.
Qed.

(** [float(z)] of an int that lands within ±180 is that int. *)
Lemma fl_of_int_exact z n b :
  fl_of_int z = Some (FFin n) → Z.abs n <= b * units → 0 <= b < 2 ^ 52 →
  n = z * units.
Proof.
  unfold fl_of_int. intros Hf Hn Hb.
  destruct (round_q (z * units) 1) as [| |m] eqn:E; try discriminate.
  injection Hf as ->. apply clip_fin in E as [E _].
  rewrite units_eq in *.
  assert (HU : 0 < 2 ^ 1074) by (apply Z.pow_pos_nonneg; lia).
  set (U := 2 ^ 1074) in *.
  destruct (Z_lt_le_dec (Z.abs z) (2 ^ 53)) as [Hs|Hbig].
  - subst U. rewrite runb_small_int in E by assumption. congruence.
  - exfalso.
    assert (Hex : runb ((2 ^ 53 - 1) * U) 1 = (2 ^ 53 - 1) * U)
      by (apply runb_small_int; lia).
    destruct (Z_le_gt_dec 0 z).
    + pose proof (runb_mono ((2 ^ 53 - 1) * U) 1 (z * U) 1 ltac:(lia) ltac:(lia)
                    ltac:(nia)) as Hm.
      rewrite Hex, E in Hm. nia.
    + pose proof (runb_mono (z * U) 1 (- ((2 ^ 53 - 1) * U)) 1 ltac:(lia) ltac:(lia)
                    ltac:(nia)) as Hm.
      rewrite runb_opp, Hex, E in Hm by lia. nia.
Qed.

Lemma range_bounds_units :
  f_m90 = FFin (- 90 * units) ∧ f_90 = FFin (90 * units) ∧
  f_m180 = FFin (- 180 * units) ∧ f_180 = FFin (180 * units).
Proof. repeat split; vm_compute; reflexivity. Qed.

Lemma in_range_bounds n m :
  in_range (FFin n) (FFin m) = true →
  Z.abs n <= 90 * units ∧ Z.abs m <= 180 * units.
Proof.
  unfold in_range. destruct range_bounds_units as (-> & -> & -> & ->).
  cbn [fl_leb]. intros H. repeat (apply andb_prop in H as [H ?]).
  lia.
Qed.

Lemma py_float_same_number `{rt : PyRuntime} v n b :
  is_number v = true → py_float v = Ok (FFin n) →
  Z.abs n <= b * units → 0 <= b < 2 ^ 52 →
  same_number v (FFin n).
Proof.
  destruct v; try discriminate; intros _; cbn [py_float same_number].
  - destruct (fl_of_int z) as [f|] eqn:E; [|discriminate].
    intros [= ->] Hn Hb. f_equal. by eapply fl_of_int_exact.
  - by intros [= ->].
Qed.

(** C6. A record whose lat and lon are numbers within range is resolved by
    tier 1, whatever else it holds: method provided_point, confidence 1.0,
    the same coordinates (as floats), and no gazetteer lookup. *)
Theorem provided_point_wins `{rt : PyRuntime} rec gaz w d vlat vlon lat lon :
  heap w !! rec = Some d →
  d !! u "lat" = Some vlat → d !! u "lon" = Some vlon →
  is_number vlat = true → is_number vlon = true →
  py_float vlat = Ok lat → py_float vlon = Ok lon →
  in_range lat lon = true →
  ∃ a d',
    resolve_location rec gaz w = (Ok a, World (<[a := d']> (heap w)) (calls w)) ∧
    d' !! u "lat" = Some (VFloat lat) ∧
    d' !! u "lon" = Some (VFloat lon) ∧
    d' !! u "loc_method" = Some (VStr (u "provided_point")) ∧
    d' !! u "loc_confidence" = Some (VFloat f_1_0) ∧
    same_number vlat lat ∧ same_number vlon lon.
Proof.
  destruct w as [h cs]. cbn [heap calls].
  intros Hrec Hlat Hlon Nlat Nlon Flat Flon Hr.
  assert (Hd : h !!! rec = d) by (by rewrite lookup_total_alt, Hrec).
  rewrite resolve_location_head, Hd.
  destruct (unlocated_fields d) as (_ & _ & _ & Ulat & Ulon).
  assert (Hpp : provided_point (unlocated d) = Ok (Some (lat, lon))).
  { unfold provided_point. cbv zeta. rewrite Ulat, Ulon, Hlat, Hlon. cbn [default from_option id].
    destruct vlat, vlon; try discriminate; cbn [is_none negb andb];
      rewrite Flat, Flon; cbn [mbind result_bind try_except]; by rewrite Hr. }
  rewrite Hpp.
  eexists _, _. split; [reflexivity|].
  destruct (located_fields (unlocated d) lat lon (u "provided_point") f_1_0
              (u "Coordinates provided in source data")) as (? & ? & ? & ? & _).
  repeat split; try assumption.
  - destruct (in_range_finite _ _ Hr) as (n & m & -> & ->).
    destruct (in_range_bounds _ _ Hr).
    eapply (py_float_same_number _ _ 90); eauto. split; [lia|]. by vm_compute.
  - destruct (in_range_finite _ _ Hr) as (n & m & -> & ->).
    destruct (in_range_bounds _ _ Hr).
    eapply (py_float_same_number _ _ 180); eauto. split; [lia|]. by vm_compute.
Qed.

(** Scenario A, with a bounding box present as well. *)
Lemma provided_point_wins_witness :
  ∃ a d',
    resolve_location (rt := ascii_rt) 1 sample_gaz
      (one_record [("lat", VFloat (fl_lit 3405 (-2)));
                   ("lon", VFloat (fl_lit (-11824) (-2)));
                   ("bbox", VList [VInt (-10); VInt 40; VInt (-8); VInt 42])])
    = (Ok a, World (<[a := d']> {[ 1%positive :=
          list_to_map [(u "lat", VFloat (fl_lit 3405 (-2)));
                       (u "lon", VFloat (fl_lit (-11824) (-2)));
                       (u "bbox", VList [VInt (-10); VInt 40; VInt (-8); VInt 42])] ]}) []) ∧
    d' !! u "lat" = Some (VFloat (fl_lit 3405 (-2))) ∧
    d' !! u "lon" = Some (VFloat (fl_lit (-11824) (-2))) ∧
    d' !! u "loc_method" = Some (VStr (u "provided_point")) ∧
    d' !! u "loc_confidence" = Some (VFloat f_1_0).
Proof.
  destruct (provided_point_wins (rt := ascii_rt) 1 sample_gaz
              (one_record [("lat", VFloat (fl_lit 3405 (-2)));
                           ("lon", VFloat (fl_lit (-11824) (-2)));
                           ("bbox", VList [VInt (-10); VInt 40; VInt (-8); VInt 42])])
              (list_to_map [(u "lat", VFloat (fl_lit 3405 (-2)));
                            (u "lon", VFloat (fl_lit (-11824) (-2)));
                            (u "bbox", VList [VInt (-10); VInt 40; VInt (-8); VInt 42])])
              (VFloat (fl_lit 3405 (-2))) (VFloat (fl_lit (-11824) (-2)))
              (fl_lit 3405 (-2)) (fl_lit (-11824) (-2)))
    as (a & d' & H1 & H2 & H3 & H4 & H5 & _);
    try (vm_compute; reflexivity).
  exists a, d'. auto.
Defined.

(* --------------------------------------------------------------------- *)
(** ** The tiers that need a country                                      *)
(* --------------------------------------------------------------------- *)

Section CountryTiers.
Context `{rt : PyRuntime}.

(** Lines 33-35 do not touch what the tiers read. *)
Lemma provided_point_unlocated d : provided_point (unlocated d) = provided_point d.
Proof.
  unfold provided_point.
  destruct (unlocated_fields d) as (_ & _ & _ & -> & ->). reflexivity.
Qed.

Lemma bbox_point_unlocated d : bbox_point (unlocated d) = bbox_point d.
Proof.
  unfold bbox_point. rewrite unlocated_lookup by key_ne. reflexivity.
Qed.

Lemma signal_texts_unlocated d : signal_texts (unlocated d) = signal_texts d.
Proof.
  unfold signal_texts, signal_text. by rewrite !unlocated_lookup by key_ne.
Qed.

Lemma truthy_str s : truthy (VStr s) = true ↔ s ≠ [].
Proof.
  cbn [truthy]. case_bool_decide; split; intros; done.
Qed.

(** A run that gets past tiers 1 and 2 and reads its text fields. *)
Lemma resolve_location_past_bbox rec gaz h cs d cc cn adm cty place :
  h !! rec = Some d →
  provided_point d = Ok None → bbox_point d = Ok None →
  signal_texts d = Ok (cc, cn, adm, cty, place) →
  resolve_location rec gaz (World h cs)
  = resolve_tail (fresh (dom h)) gaz cc cn adm cty place
      (World (<[fresh (dom h) := unlocated d]> h) cs).
Proof.
  intros Hrec H1 H2 H3.
  assert (Hd : h !!! rec = d) by (by rewrite lookup_total_alt, Hrec).
  rewrite resolve_location_head, Hd.
  by rewrite provided_point_unlocated, H1, bbox_point_unlocated, H2,
    signal_texts_unlocated, H3.
Qed.

(** What lines 70-74 compute: the code first, the name only when the code
    is empty or unknown. *)
Lemma country_data_spec gaz cc cn :
  let by_code := if truthy (VStr cc) then Gazetteer.find_country gaz cc else Ok None in
  let name_tried := match by_code with Ok None => truthy (VStr cn) | _ => false end in
  country_data gaz cc cn
  = match by_code with
    | Ok None => if truthy (VStr cn) then Gazetteer.find_country gaz cn else Ok None
    | r => r
    end ∧
  country_calls gaz cc cn
  = (if truthy (VStr cc) then [FindCountry cc] else [])
    ++ (if name_tried then [FindCountry cn] else []).
Proof.
  unfold country_data, country_calls, resolve_country.
  destruct (truthy (VStr cc)); mrun.
  - destruct (Gazetteer.find_country gaz cc) as [[c|]|e]; mrun;
      cbn [negb andb bool_decide]; try (split; reflexivity).
    rewrite bool_decide_eq_false_2 by (by intros [? [=]]). cbn [negb andb].
    destruct (truthy (VStr cn)); mrun; [|split; reflexivity].
    destruct (Gazetteer.find_country gaz cn); split; reflexivity.
  - rewrite bool_decide_eq_false_2 by (by intros [? [=]]). cbn [negb andb].
    destruct (truthy (VStr cn)); mrun; [|split; reflexivity].
    destruct (Gazetteer.find_country gaz cn); split; reflexivity.
Qed.
End CountryTiers.

(* --------------------------------------------------------------------- *)
(** ** The tiers past the country, run by run                             *)
(* --------------------------------------------------------------------- *)

Lemma str_split_cons sep s : ∃ p ps, str_split sep s = p :: ps.
Proof.
  induction s as [|c s (p & ps & IH)]; cbn [str_split]; [eauto|].
  destruct (c =? sep)%N; [eauto|]. rewrite IH. eauto.
Qed.

(** A string that holds the separator splits into two parts at least. *)
Lemma str_split_two sep s :
  str_contains sep s = true → ∃ p q rest, str_split sep s = p :: q :: rest.
Proof.
  unfold str_contains. induction s as [|c s IH]; cbn [existsb str_split]; [discriminate|].
  rewrite N.eqb_sym. destruct (c =? sep)%N; cbn [orb].
  - intros _. destruct (str_split_cons sep s) as (p & ps & ->). eauto.
  - intros (p & q & rest & ->)%IH. eauto.
Qed.

Section TierRuns.
Context `{rt : PyRuntime}.

Lemma bbox_centroid_in_range v lat lon :
  bbox_centroid v = Ok (Some (lat, lon)) → in_range lat lon = true.
Proof.
  unfold bbox_centroid. destruct (negb (truthy v)); [discriminate|].
  destruct (py_len v) as [n|]; cbn [mbind result_bind]; [|discriminate].
  destruct (negb (n =? 4)); [discriminate|].
  destruct (py_iter v) as [items|e]; cbn [mbind result_bind];
    [|unfold try_except; destruct (except_value_type e); discriminate].
  destruct (mapM py_float items) as [vals|e]; cbn [mbind result_bind];
    [|unfold try_except; destruct (except_value_type e); discriminate].
  destruct vals as [|f1 [|f2 [|f3 [|f4 [|]]]]]; try discriminate.
  destruct (half_sum_ok f2 f4) as [la ->], (half_sum_ok f1 f3) as [lo ->].
  cbn [mbind result_bind]. destruct (in_range la lo) eqn:E; [|discriminate].
  cbn [try_except]. by intros [= <- <-].
Qed.

Lemma tier_city_skip a gaz cd adm cty w :
  truthy (VStr cty) = false → tier_city a gaz cd adm cty w = (Ok false, w).
Proof. intros H. unfold tier_city. destruct cd; [rewrite H|]; reflexivity. Qed.

Lemma tier_place_name_skip a gaz cd place w :
  str_contains 44 place = false → tier_place_name a gaz cd place w = (Ok false, w).
Proof.
  intros H. unfold tier_place_name. destruct cd; [|reflexivity].
  rewrite H, andb_false_r. reflexivity.
Qed.

Lemma tier_place_name_run a gaz cd place pc pa rest d h cs r :
  str_contains 44 place = true →
  str_strip <$> str_split 44 place = pc :: pa :: rest →
  Gazetteer.find_city gaz (c_iso2 cd) (Some pa) pc = Ok r →
  tier_place_name a gaz (Some cd) place (World (<[a := d]> h) cs) =
  match r with
  | Some c =>
      (Ok true,
       World (<[a := located d (ci_lat c) (ci_lon c) (u "city_geocode") f_0_72
                        (u "Parsed from place name: " ++ format_cell (ci_name c))]> h)
             (cs ++ [FindCity (c_iso2 cd) (Some pa) pc]))
  | None =>
      (Ok false, World (<[a := d]> h) (cs ++ [FindCity (c_iso2 cd) (Some pa) pc]))
  end.
Proof.
  intros Hc Hs Hf. unfold tier_place_name. rewrite Hc, Hs.
  assert (truthy (VStr place) = true) as ->.
  { destruct place; [discriminate Hc|reflexivity]. }
  cbn [andb]. mrun. rewrite Hf. destruct r; mrun; reflexivity.
Qed.

Lemma tier_admin1_skip a gaz cd adm w :
  truthy (VStr adm) = false → tier_admin1 a gaz cd adm w = (Ok false, w).
Proof. intros H. unfold tier_admin1. destruct cd; [rewrite H|]; reflexivity. Qed.

Lemma tier_admin1_run a gaz cd adm d h cs r :
  truthy (VStr adm) = true →
  Gazetteer.find_admin1 gaz (c_iso2 cd) adm = Ok r →
  tier_admin1 a gaz (Some cd) adm (World (<[a := d]> h) cs) =
  match r with
  | Some e =>
      (Ok true,
       World (<[a := located d (a_lat e) (a_lon e) (u "admin1_centroid") f_0_7
                        (u "Admin1: " ++ format_cell (a_name e) ++ u ", "
                           ++ format_cell (c_name cd))]> h)
             (cs ++ [FindAdmin1 (c_iso2 cd) adm]))
  | None =>
      (Ok false, World (<[a := d]> h) (cs ++ [FindAdmin1 (c_iso2 cd) adm]))
  end.
Proof.
  intros Ha Hf. unfold tier_admin1. rewrite Ha. mrun. rewrite Hf.
  destruct r; mrun; reflexivity.
Qed.

(** A city lookup that is not made, or misses. *)
Lemma tier_city_miss a gaz cd adm cty d h cs :
  city_misses gaz cd adm cty →
  ∃ tr, tier_city a gaz (Some cd) adm cty (World (<[a := d]> h) cs)
        = (Ok false, World (<[a := d]> h) (cs ++ tr)).
Proof.
  destruct (truthy (VStr cty)) eqn:Hc.
  - intros [->|Hf]; [discriminate Hc|].
    rewrite (tier_city_run _ _ _ _ _ _ _ _ _ Hc Hf). eauto.
  - intros _. exists []. rewrite app_nil_r. by apply tier_city_skip.
Qed.

Lemma tier_place_name_miss a gaz cd place d h cs :
  place_misses gaz cd place →
  ∃ tr, tier_place_name a gaz (Some cd) place (World (<[a := d]> h) cs)
        = (Ok false, World (<[a := d]> h) (cs ++ tr)).
Proof.
  intros [Hc|(pc & pa & rest & Hs & Hf)].
  - exists []. rewrite app_nil_r. by apply tier_place_name_skip.
  - destruct (str_contains 44 place) eqn:Hc.
    + rewrite (tier_place_name_run _ _ _ _ _ _ _ _ _ _ _ Hc Hs Hf). eauto.
    + exists []. rewrite app_nil_r. by apply tier_place_name_skip.
Qed.

Lemma tier_admin1_miss a gaz cd adm d h cs :
  admin1_misses gaz cd adm →
  ∃ tr, tier_admin1 a gaz (Some cd) adm (World (<[a := d]> h) cs)
        = (Ok false, World (<[a := d]> h) (cs ++ tr)).
Proof.
  destruct (truthy (VStr adm)) eqn:Hc.
  - intros [->|Hf]; [discriminate Hc|].
    rewrite (tier_admin1_run _ _ _ _ _ _ _ _ Hc Hf). eauto.
  - intros _. exists []. rewrite app_nil_r. by apply tier_admin1_skip.
Qed.

Lemma tier_country_run a cd d h cs :
  tier_country a (Some cd) (World (<[a := d]> h) cs)
  = (Ok (), World (<[a := located d (c_lat cd) (c_lon cd) (u "country_centroid") f_0_6
                            (u "Country: " ++ format_cell (c_name cd))]> h) cs).
Proof. unfold tier_country. by rewrite set_location_run. Qed.

(** Past the first two tiers with a country resolved: what is left to
    run. *)
Lemma resolve_location_with_country rec gaz h cs d cc cn adm cty place cd :
  h !! rec = Some d →
  provided_point d = Ok None → bbox_point d = Ok None →
  signal_texts d = Ok (cc, cn, adm, cty, place) →
  country_data gaz cc cn = Ok (Some cd) →
  let a := fresh (dom h) in
  resolve_location rec gaz (World h cs)
  = (returned ← tier_city a gaz (Some cd) adm cty;
     if returned : bool then mret a else
     returned ← tier_place_name a gaz (Some cd) place;
     if returned : bool then mret a else
     returned ← tier_admin1 a gaz (Some cd) adm;
     if returned : bool then mret a else
     tier_country a (Some cd);; mret a)
      (World (<[a := unlocated d]> h) (cs ++ country_calls gaz cc cn)).
Proof.
  intros Hrec Hpp Hbp Hst Hcd a.
  rewrite (resolve_location_past_bbox _ _ _ _ _ _ _ _ _ _ Hrec Hpp Hbp Hst).
  unfold resolve_tail. rewrite bind_run, resolve_country_run, Hcd. reflexivity.
Qed.
End TierRuns.

Section Uniform.
Context `{rt : PyRuntime}.

(** What a tier does depends on the object it writes to only through the
    items it copies: the lookups, the outcome and what is written are the
    same for every object, heap and trace.  Its lookups are made in the
    country resolved. *)
Lemma tier_city_uniform gaz cd adm cty :
  ∃ tr,
    Forall (in_country cd) tr ∧
    ((∀ a d h cs,
        tier_city a gaz (Some cd) adm cty (World (<[a := d]> h) cs)
        = (Ok false, World (<[a := d]> h) (cs ++ tr))) ∨
     (∃ lat lon m c n,
        scored c ∧
        ∀ a d h cs,
          tier_city a gaz (Some cd) adm cty (World (<[a := d]> h) cs)
          = (Ok true, World (<[a := located d lat lon m c n]> h) (cs ++ tr)))).
Proof.
  destruct (truthy (VStr cty)) eqn:Hc.
  - destruct (find_city_total gaz (c_iso2 cd) (Some adm) cty) as [c Hf].
    exists [FindCity (c_iso2 cd) (Some adm) cty]. split; [by repeat constructor|].
    destruct c as [c|].
    + right. do 5 eexists. split; [apply scored_city|].
      intros a d h cs. by rewrite (tier_city_run _ _ _ _ _ _ _ _ _ Hc Hf).
    + left. intros a d h cs. by rewrite (tier_city_run _ _ _ _ _ _ _ _ _ Hc Hf).
  - exists []. split; [constructor|]. left. intros a d h cs.
    rewrite app_nil_r. by apply tier_city_skip.
Qed.

Lemma tier_place_name_uniform gaz cd place :
  ∃ tr,
    Forall (in_country cd) tr ∧
    ((∀ a d h cs,
        tier_place_name a gaz (Some cd) place (World (<[a := d]> h) cs)
        = (Ok false, World (<[a := d]> h) (cs ++ tr))) ∨
     (∃ lat lon m c n,
        scored c ∧
        ∀ a d h cs,
          tier_place_name a gaz (Some cd) place (World (<[a := d]> h) cs)
          = (Ok true, World (<[a := located d lat lon m c n]> h) (cs ++ tr)))).
Proof.
  destruct (str_contains 44 place) eqn:Hc.
  - destruct (str_split_two 44 place Hc) as (p & q & rest & Hs).
    assert (Hs' : str_strip <$> str_split 44 place
                  = str_strip p :: str_strip q :: (str_strip <$> rest))
      by (by rewrite Hs).
    destruct (find_city_total gaz (c_iso2 cd) (Some (str_strip q)) (str_strip p))
      as [c Hf].
    exists [FindCity (c_iso2 cd) (Some (str_strip q)) (str_strip p)].
    split; [by repeat constructor|].
    destruct c as [c|].
    + right. do 5 eexists. split; [apply scored_0_72|].
      intros a d h cs.
      by rewrite (tier_place_name_run _ _ _ _ _ _ _ _ _ _ _ Hc Hs' Hf).
    + left. intros a d h cs.
      by rewrite (tier_place_name_run _ _ _ _ _ _ _ _ _ _ _ Hc Hs' Hf).
  - exists []. split; [constructor|]. left. intros a d h cs.
    rewrite app_nil_r. by apply tier_place_name_skip.
Qed.

Lemma tier_admin1_uniform gaz cd adm :
  ∃ tr,
    Forall (in_country cd) tr ∧
    ((∀ a d h cs,
        tier_admin1 a gaz (Some cd) adm (World (<[a := d]> h) cs)
        = (Ok false, World (<[a := d]> h) (cs ++ tr))) ∨
     (∃ lat lon m c n,
        scored c ∧
        ∀ a d h cs,
          tier_admin1 a gaz (Some cd) adm (World (<[a := d]> h) cs)
          = (Ok true, World (<[a := located d lat lon m c n]> h) (cs ++ tr)))).
Proof.
  destruct (truthy (VStr adm)) eqn:Hc.
  - destruct (find_admin1_total gaz (c_iso2 cd) adm) as [e Hf].
    exists [FindAdmin1 (c_iso2 cd) adm]. split; [by repeat constructor|].
    destruct e as [e|].
    + right. do 5 eexists. split; [apply scored_0_7|].
      intros a d h cs. by rewrite (tier_admin1_run _ _ _ _ _ _ _ _ Hc Hf).
    + left. intros a d h cs. by rewrite (tier_admin1_run _ _ _ _ _ _ _ _ Hc Hf).
  - exists []. split; [constructor|]. left. intros a d h cs.
    rewrite app_nil_r. by apply tier_admin1_skip.
Qed.

(** Lines 70-126, whatever the object: the same lookups and the same
    verdict.  With a country, every later lookup is made in it and the
    record ends located; without one, no later lookup is made. *)
Lemma resolve_tail_uniform gaz cc cn adm cty place cdo :
  country_data gaz cc cn = Ok cdo →
  match cdo with
  | None =>
      ∀ a d h cs,
        resolve_tail a gaz cc cn adm cty place (World (<[a := d]> h) cs)
        = (Ok a, World (<[a := <[u "loc_notes" := VStr (u "Could not resolve location")]> d]> h)
                       (cs ++ country_calls gaz cc cn))
  | Some cd =>
      ∃ later,
        Forall (in_country cd) later ∧
        ∃ lat lon m c n,
          scored c ∧
          ∀ a d h cs,
            resolve_tail a gaz cc cn adm cty place (World (<[a := d]> h) cs)
            = (Ok a, World (<[a := located d lat lon m c n]> h)
                           (cs ++ country_calls gaz cc cn ++ later))
  end.
Proof.
  intros Hcd. destruct cdo as [cd|].
  - destruct (tier_city_uniform gaz cd adm cty) as (t1 & F1 & [E1|(la & lo & m & c & n & S & E1)]).
    2:{ exists t1. split; [done|]. exists la, lo, m, c, n. split; [done|].
        intros a d h cs. unfold resolve_tail.
        rewrite bind_run, resolve_country_run, Hcd. cbv beta iota.
        rewrite bind_run, E1. cbv beta iota. by rewrite ret_run, <- app_assoc. }
    destruct (tier_place_name_uniform gaz cd place)
      as (t2 & F2 & [E2|(la & lo & m & c & n & S & E2)]).
    2:{ exists (t1 ++ t2). split; [by apply Forall_app|].
        exists la, lo, m, c, n. split; [done|].
        intros a d h cs. unfold resolve_tail.
        rewrite bind_run, resolve_country_run, Hcd. cbv beta iota.
        rewrite bind_run, E1. cbv beta iota.
        rewrite bind_run, E2. cbv beta iota. by rewrite ret_run, <- !app_assoc. }
    destruct (tier_admin1_uniform gaz cd adm)
      as (t3 & F3 & [E3|(la & lo & m & c & n & S & E3)]).
    2:{ exists (t1 ++ t2 ++ t3). split; [by repeat (apply Forall_app; split)|].
        exists la, lo, m, c, n. split; [done|].
        intros a d h cs. unfold resolve_tail.
        rewrite bind_run, resolve_country_run, Hcd. cbv beta iota.
        rewrite bind_run, E1. cbv beta iota.
        rewrite bind_run, E2. cbv beta iota.
        rewrite bind_run, E3. cbv beta iota. by rewrite ret_run, <- !app_assoc. }
    exists (t1 ++ t2 ++ t3). split; [by repeat (apply Forall_app; split)|].
    do 5 eexists. split; [apply scored_0_6|].
    intros a d h cs. unfold resolve_tail.
    rewrite bind_run, resolve_country_run, Hcd. cbv beta iota.
    rewrite bind_run, E1. cbv beta iota.
    rewrite bind_run, E2. cbv beta iota.
    rewrite bind_run, E3. cbv beta iota.
    rewrite bind_run, tier_country_run. cbv beta iota.
    by rewrite ret_run, <- !app_assoc.
  - intros a d h cs.
    exact (resolve_tail_run a gaz cc cn adm cty place d h cs None Hcd).
Qed.

Lemma in_country_not_country cd tr :
  Forall (in_country cd) tr → Forall (λ c, is_find_country c = false) tr.
Proof. intros H. eapply Forall_impl; [exact H|]. by intros []. Qed.

(** Two worlds that hold the same object at the same address there. *)
Lemma same_result (a : positive) (d1 d2 : gmap str pyval)
    (h : gmap positive (gmap str pyval)) (t1 t2 : list gaz_call) :
  (Ok a : result positive, World (<[a := d1]> h) t1)
  = (Ok a, World (<[a := d2]> h) t2) →
  d1 = d2 ∧ t1 = t2.
Proof.
  intros [= Hh Ht]. split; [|done].
  assert (<[a := d1]> h !! a = <[a := d2]> h !! a) as E by (by rewrite Hh).
  rewrite !lookup_insert_eq in E. congruence.
Qed.
End Uniform.

(** C8. When the structured city tier succeeds, the record gets method
    city_geocode, the city's coordinates and the confidence
    min(0.75 + [0.05 if an admin name was supplied] + [0.05 if the city's
    population exceeds 1,000,000], 1.0); with no admin name and such a
    population that is 0.8. *)
Theorem city_tier_confidence `{rt : PyRuntime}
    rec gaz w d cc cn adm cty place cd c :
  heap w !! rec = Some d →
  provided_point d = Ok None → bbox_point d = Ok None →
  signal_texts d = Ok (cc, cn, adm, cty, place) →
  country_data gaz cc cn = Ok (Some cd) →
  cty ≠ [] →
  Gazetteer.find_city gaz (c_iso2 cd) (Some adm) cty = Ok (Some c) →
  ∃ a d' tr,
    resolve_location rec gaz w = (Ok a, World (<[a := d']> (heap w)) (calls w ++ tr)) ∧
    d' !! u "loc_method" = Some (VStr (u "city_geocode")) ∧
    d' !! u "loc_confidence"
      = Some (VFloat (fl_min (fl_add (fl_add f_0_75 (bonus (bool_decide (adm ≠ []))))
                                     (bonus (bool_decide (1000000 < ci_pop c))))
                             f_1_0)) ∧
    d' !! u "lat" = Some (VFloat (ci_lat c)) ∧
    d' !! u "lon" = Some (VFloat (ci_lon c)) ∧
    (adm = [] → 1000000 < ci_pop c →
     d' !! u "loc_confidence" = Some (VFloat f_0_8)).
Proof.
  destruct w as [h cs]. cbn [heap calls].
  intros Hrec H1 H2 H3 Hcd Hcty Hcity.
  rewrite (resolve_location_past_bbox _ _ _ _ _ _ _ _ _ _ Hrec H1 H2 H3).
  unfold resolve_tail. rewrite bind_run, resolve_country_run, Hcd. mrun.
  rewrite (tier_city_run _ _ _ _ _ _ _ _ _ (proj2 (truthy_str cty) Hcty) Hcity). mrun.
  eexists _, _, _. rewrite <- app_assoc. split; [reflexivity|].
  match goal with |- context [located ?d ?la ?lo ?m ?cf ?n] =>
    destruct (located_fields d la lo m cf n) as (Hla & Hlo & Hm & Hc & _) end.
  assert (Hconf : city_confidence adm (ci_pop c)
                  = fl_min (fl_add (fl_add f_0_75 (bonus (bool_decide (adm ≠ []))))
                                   (bonus (bool_decide (1000000 < ci_pop c)))) f_1_0).
  { unfold city_confidence. do 4 f_equal.
    - cbn [truthy]. by repeat case_bool_decide.
    - destruct (Z.gtb_spec (ci_pop c) 1000000); case_bool_decide; done || lia. }
  rewrite <- Hconf. repeat split; try assumption.
  intros -> Hpop. rewrite Hc. do 2 f_equal. unfold city_confidence.
  destruct (Z.gtb_spec (ci_pop c) 1000000); [|lia]. vm_compute. reflexivity.
Qed.

(** Scenario C on the sample gazetteer: Los Angeles has 3,898,747
    inhabitants. *)
Lemma city_tier_confidence_witness :
  ∃ a d' tr,
    resolve_location (rt := ascii_rt) 1 sample_gaz
      (one_record [("country", VStr (u "USA")); ("city", VStr (u "Los Angeles"))])
    = (Ok a, World (<[a := d']> {[ 1%positive :=
          list_to_map [(u "country", VStr (u "USA"));
                       (u "city", VStr (u "Los Angeles"))] ]}) ([] ++ tr)) ∧
    d' !! u "loc_method" = Some (VStr (u "city_geocode")) ∧
    d' !! u "loc_confidence" = Some (VFloat f_0_8).
Proof.
  destruct (city_tier_confidence (rt := ascii_rt) 1 sample_gaz
              (one_record [("country", VStr (u "USA")); ("city", VStr (u "Los Angeles"))])
              (list_to_map [(u "country", VStr (u "USA"));
                            (u "city", VStr (u "Los Angeles"))])
              [] (u "USA") [] (u "Los Angeles") [] sample_us sample_la)
    as (a & d' & tr & Hrun & Hm & _ & _ & _ & Hc);
    try (vm_compute; reflexivity).
  - discriminate.
  - exists a, d', tr. split; [exact Hrun|]. split; [exact Hm|].
    apply Hc; reflexivity.
Defined.

(** C7. Past tiers 1 and 2, a run looks a country up at most twice, once
    by the code and then, only when the code is empty or unknown, once by
    the name, and no later tier looks a country up again.  The country
    found, by the code if the code finds one and by the name otherwise,
    is the one tiers 3 to 6 work with: every later lookup is made in it,
    the record ends located, and when the city, place-name and admin1
    tiers do not locate it, at the centroid of that country with method
    country_centroid and confidence 0.6.  When neither lookup finds a
    country no city or admin lookup is made at all and the result is
    method None with confidence 0.0 and the coordinates as they came. *)
Theorem country_resolution_once `{rt : PyRuntime}
    rec gaz w d cc cn adm cty place :
  heap w !! rec = Some d →
  provided_point d = Ok None → bbox_point d = Ok None →
  signal_texts d = Ok (cc, cn, adm, cty, place) →
  let by_code := if truthy (VStr cc) then Gazetteer.find_country gaz cc else Ok None in
  let by_name := if truthy (VStr cn) then Gazetteer.find_country gaz cn else Ok None in
  let name_tried := match by_code with Ok None => truthy (VStr cn) | _ => false end in
  let found := match by_code with Ok None => by_name | r => r end in
  ∃ a d' later,
    resolve_location rec gaz w
    = (Ok a, World (<[a := d']> (heap w))
                   (calls w ++ (if truthy (VStr cc) then [FindCountry cc] else [])
                            ++ (if name_tried then [FindCountry cn] else [])
                            ++ later)) ∧
    Forall (λ c, is_find_country c = false) later ∧
    (by_code = Ok None → by_name = Ok None →
     later = [] ∧
     d' !! u "loc_method" = Some VNone ∧
     d' !! u "loc_confidence" = Some (VFloat f_0_0) ∧
     d' !! u "lat" = d !! u "lat" ∧ d' !! u "lon" = d !! u "lon") ∧
    (∀ cd, found = Ok (Some cd) →
       Forall (in_country cd) later ∧
       (∃ m, d' !! u "loc_method" = Some (VStr m)) ∧
       (city_misses gaz cd adm cty → place_misses gaz cd place →
        admin1_misses gaz cd adm →
        d' !! u "lat" = Some (VFloat (c_lat cd)) ∧
        d' !! u "lon" = Some (VFloat (c_lon cd)) ∧
        d' !! u "loc_method" = Some (VStr (u "country_centroid")) ∧
        d' !! u "loc_confidence" = Some (VFloat f_0_6) ∧
        d' !! u "loc_notes"
          = Some (VStr (u "Country: " ++ format_cell (c_name cd))))).
Proof.
  intros Hrec H1 H2 H3 by_code by_name name_tried found.
  destruct w as [h cs]. cbn [heap calls] in Hrec |- *.
  destruct (country_data_spec gaz cc cn) as [Hdata Hcalls].
  fold by_code in Hdata, Hcalls. fold name_tried in Hcalls.
  assert (Hfound : country_data gaz cc cn = found).
  { rewrite Hdata. unfold found, by_name. by destruct by_code as [[?|]|]. }
  destruct (country_data_total gaz cc cn) as [cdo Hcd].
  pose proof (resolve_tail_uniform gaz cc cn adm cty place cdo Hcd) as Ht.
  rewrite (resolve_location_past_bbox _ _ _ _ _ _ _ _ _ _ Hrec H1 H2 H3).
  rewrite Hcalls in Ht. destruct cdo as [cd|].
  - destruct Ht as (later & Hlater & lat & lon & m & c & n & Hs & E).
    specialize (E (fresh (dom h)) (unlocated d) h cs).
    rewrite <- app_assoc in E.
    eexists _, _, later. split; [exact E|].
    split; [by eapply in_country_not_country|]. split.
    + intros Hc Hn. unfold found in Hfound. rewrite Hc, Hn in Hfound. congruence.
    + intros cd' Hcd'. assert (cd' = cd) as -> by congruence.
      split; [exact Hlater|].
      destruct (located_fields (unlocated d) lat lon m c n) as (_ & _ & Hm & _).
      split; [eauto|]. intros Hcity Hplace Hadm.
      pose proof (resolve_location_with_country rec gaz h cs d cc cn adm cty place cd
                    Hrec H1 H2 H3 Hcd) as Hrun.
      cbv zeta in Hrun.
      rewrite (resolve_location_past_bbox _ _ _ _ _ _ _ _ _ _ Hrec H1 H2 H3) in Hrun.
      rewrite E in Hrun. set (a := fresh (dom h)) in *.
      destruct (tier_city_miss a gaz cd adm cty (unlocated d) h
                  (cs ++ country_calls gaz cc cn) Hcity) as [tr1 E1].
      rewrite bind_run, E1 in Hrun. cbv beta iota in Hrun.
      destruct (tier_place_name_miss a gaz cd place (unlocated d) h
                  ((cs ++ country_calls gaz cc cn) ++ tr1) Hplace) as [tr2 E2].
      rewrite bind_run, E2 in Hrun. cbv beta iota in Hrun.
      destruct (tier_admin1_miss a gaz cd adm (unlocated d) h
                  (((cs ++ country_calls gaz cc cn) ++ tr1) ++ tr2) Hadm) as [tr3 E3].
      rewrite bind_run, E3 in Hrun. cbv beta iota in Hrun.
      rewrite bind_run, tier_country_run in Hrun. cbv beta iota in Hrun.
      rewrite ret_run in Hrun. apply same_result in Hrun as [-> _].
      match goal with |- context [located ?d ?la ?lo ?m ?cf ?n] =>
        destruct (located_fields d la lo m cf n) as (Hla & Hlo & Hm' & Hc & Hn) end.
      auto.
  - specialize (Ht (fresh (dom h)) (unlocated d) h cs).
    eexists _, _, []. rewrite !app_nil_r. split; [exact Ht|]. split; [constructor|].
    split.
    + intros _ _. split; [reflexivity|].
      destruct (unlocated_fields d) as (Hm & Hc & _ & Hla & Hlo).
      rewrite !(lookup_insert_ne _ (u "loc_notes")) by key_ne. auto.
    + intros cd Hcd'. congruence.
Qed.

(** Scenario D on the sample gazetteer: one lookup, by name, and the
    record stays unresolved.  And a record with the code of Mexico and the
    name of the United States: one lookup, by code, and the record is
    located at the centroid of Mexico. *)
Lemma country_resolution_once_witness :
  (∃ a d',
     resolve_location (rt := ascii_rt) 1 sample_gaz
       (one_record [("country", VStr (u "Ruritania"))])
     = (Ok a, World (<[a := d']> {[ 1%positive :=
           list_to_map [(u "country", VStr (u "Ruritania"))] ]})
                    [FindCountry (u "Ruritania")]) ∧
     d' !! u "loc_method" = Some VNone ∧
     d' !! u "loc_confidence" = Some (VFloat f_0_0)) ∧
  (∃ a d',
     resolve_location (rt := ascii_rt) 1 sample_gaz
       (one_record [("country_code", VStr (u "mx")); ("country", VStr (u "USA"))])
     = (Ok a, World (<[a := d']> {[ 1%positive :=
           list_to_map [(u "country_code", VStr (u "mx"));
                        (u "country", VStr (u "USA"))] ]})
                    [FindCountry (u "MX")]) ∧
     d' !! u "loc_method" = Some (VStr (u "country_centroid")) ∧
     d' !! u "lat" = Some (VFloat (c_lat sample_mx))).
Proof.
  split.
  - destruct (country_resolution_once (rt := ascii_rt) 1 sample_gaz
                (one_record [("country", VStr (u "Ruritania"))])
                (list_to_map [(u "country", VStr (u "Ruritania"))])
                [] (u "Ruritania") [] [] [])
      as (a & d' & later & Hrun & _ & Hnone & _);
      try (vm_compute; reflexivity).
    destruct Hnone as (-> & Hm & Hc & _); try (vm_compute; reflexivity).
    exists a, d'. split; [exact Hrun|]. auto.
  - destruct (country_resolution_once (rt := ascii_rt) 1 sample_gaz
                (one_record [("country_code", VStr (u "mx")); ("country", VStr (u "USA"))])
                (list_to_map [(u "country_code", VStr (u "mx"));
                              (u "country", VStr (u "USA"))])
                (u "MX") (u "USA") [] [] [])
      as (a & d' & later & Hrun & _ & _ & Hfound);
      try (vm_compute; reflexivity).
    destruct (Hfound sample_mx) as (_ & _ & Hcentroid); [vm_compute; reflexivity|].
    destruct Hcentroid as (Hla & _ & Hm & _); [by left|by left|by left|].
    assert (later = []) as ->.
    { assert (E : calls (resolve_location (rt := ascii_rt) 1 sample_gaz
                           (one_record [("country_code", VStr (u "mx"));
                                        ("country", VStr (u "USA"))])).2
                  = [FindCountry (u "MX")]) by (vm_compute; reflexivity).
      rewrite Hrun in E. cbn [snd calls] in E.
      change (FindCountry (u "MX") :: later = [FindCountry (u "MX")]) in E.
      by injection E. }
    exists a, d'. split; [exact Hrun|]. auto.
Defined.

(* --------------------------------------------------------------------- *)
(** ** Which records make the resolver raise                              *)
(* --------------------------------------------------------------------- *)

Section Raising.
Context `{rt : PyRuntime}.

Lemma mapM_raise_inv {A B} (f : A → result B) l e :
  mapM f l = Raise e → ∃ v, v ∈ l ∧ f v = Raise e.
Proof.
  induction l as [|x l IH]; [discriminate|].
  cbn [mapM mbind result_bind]. destruct (f x) as [y|e'] eqn:Ex.
  - destruct (mapM f l) as [ys|e'']; [discriminate|].
    intros [= ->]. destruct (IH eq_refl) as (v & Hin & Hv).
    exists v. split; [by right|done].
  - intros [= ->]. exists x. split; [by left|done].
Qed.

Lemma try_except_items items :
  Forall no_overflow items →
  ∃ r,
    try_except
      (vals ← mapM py_float items;
       match vals with
       | [min_lon; min_lat; max_lon; max_lat] =>
           lat ← half_sum min_lat max_lat;
           lon ← half_sum min_lon max_lon;
           if in_range lat lon then Ok (Some (lat, lon)) else Ok None
       | _ => Raise ValueError
       end)
      (Ok None) = Ok r.
Proof.
  intros Hno. destruct (mapM py_float items) as [vals|e] eqn:Em;
    cbn [mbind result_bind].
  - destruct vals as [|a [|b [|c [|d [|]]]]]; try (eexists; reflexivity).
    destruct (half_sum_ok b d) as [lat ->]. destruct (half_sum_ok a c) as [lon ->].
    cbn [mbind result_bind]. destruct (in_range lat lon); (eexists; reflexivity).
  - destruct (mapM_raise_inv _ _ _ Em) as (v & Hin & Hv).
    rewrite Forall_forall in Hno. specialize (Hno v Hin).
    destruct (py_float_raises v e Hv) as [-> | [-> | ->]];
      [eexists; reflexivity|eexists; reflexivity|by destruct Hno].
Qed.

Lemma bbox_centroid_no_raise v : sized_bbox v → ∃ r, bbox_centroid v = Ok r.
Proof.
  unfold bbox_centroid.
  destruct (truthy v) eqn:Ht; cbn [negb]; [|(eexists; reflexivity)].
  destruct v as [| | | |s|l|d]; cbn [sized_bbox]; try congruence; intros Hs;
    cbn [py_len py_iter mbind result_bind];
    (match goal with |- context [negb ?b] => destruct b end);
    cbn [negb]; try (eexists; reflexivity); apply try_except_items; [|exact Hs|].
  - apply Forall_fmap, Forall_forall. intros c _. unfold no_overflow.
    cbn [py_float compose]. by destruct (float_of_str [c]).
  - apply Forall_fmap, Forall_forall. intros c _. unfold no_overflow.
    cbn [py_float compose]. by destruct (float_of_str c.1).
Qed.

Lemma provided_point_no_raise d :
  (∀ v, d !! u "lat" = Some v → no_overflow v) →
  (∀ v, d !! u "lon" = Some v → no_overflow v) →
  ∃ r, provided_point d = Ok r.
Proof.
  intros Hlat Hlon. unfold provided_point. cbv zeta.
  destruct (d !! u "lat") as [vlat|]; cbn [default from_option id is_none negb andb];
    [|(eexists; reflexivity)].
  destruct (d !! u "lon") as [vlon|]; cbn [default from_option id is_none negb andb];
    [|rewrite andb_false_r; (eexists; reflexivity)].
  destruct (negb (is_none vlat) && negb (is_none vlon)); [|(eexists; reflexivity)].
  specialize (Hlat _ eq_refl). specialize (Hlon _ eq_refl).
  destruct (py_float vlat) as [la|e] eqn:E1; cbn [mbind result_bind].
  - destruct (py_float vlon) as [lo|e] eqn:E2; cbn [mbind result_bind].
    + destruct (in_range la lo); (eexists; reflexivity).
    + destruct (py_float_raises _ _ E2) as [-> | [-> | ->]]; try (eexists; reflexivity).
      by destruct Hlon.
  - destruct (py_float_raises _ _ E1) as [-> | [-> | ->]]; try (eexists; reflexivity).
    by destruct Hlat.
Qed.

Lemma signal_text_ok d k : text_field d k → ∃ s, signal_text d k = Ok s.
Proof.
  unfold text_field, signal_text.
  destruct (d !! k) as [[]|]; try done; intros _; (eexists; reflexivity).
Qed.

Lemma typed_signal_no_raise d :
  typed_signal d →
  (∃ r, provided_point d = Ok r) ∧ (∃ r, bbox_point d = Ok r) ∧
  (∃ r, signal_texts d = Ok r).
Proof.
  intros (Hlat & Hlon & Hbox & Htext). split; [|split].
  - by apply provided_point_no_raise.
  - unfold bbox_point. cbv zeta.
    destruct (d !! u "bbox") as [v|] eqn:E; cbn [default from_option id];
      [|(eexists; reflexivity)].
    destruct (truthy v); [|(eexists; reflexivity)]. by apply bbox_centroid_no_raise, Hbox.
  - unfold signal_texts.
    repeat (apply Forall_cons in Htext as [?%signal_text_ok Htext]).
    repeat match goal with H : ∃ s, signal_text _ _ = _ |- _ =>
      destruct H as [? ->] end.
    (eexists; reflexivity).
Qed.
End Raising.

(* --------------------------------------------------------------------- *)
(** ** The record matters through its tier decisions only                 *)
(* --------------------------------------------------------------------- *)

Section Decided.
Context `{rt : PyRuntime}.

(** A run is settled by what tiers 1 and 2 decide and by the five texts:
    records that agree on these get the same exception, or the same
    verdict, and the same lookups. *)
Lemma resolve_location_by_decisions gaz pp bp st :
  ∃ tr,
    (∃ e, ∀ rec h cs d,
        h !! rec = Some d →
        provided_point d = pp → bbox_point d = bp → signal_texts d = st →
        resolve_location rec gaz (World h cs)
        = (Raise e, World (<[fresh (dom h) := unlocated d]> h) (cs ++ tr))) ∨
    (∃ v,
        match v with Located _ _ _ c _ => scored c | Unresolved => True end ∧
        ∀ rec h cs d,
          h !! rec = Some d →
          provided_point d = pp → bbox_point d = bp → signal_texts d = st →
          resolve_location rec gaz (World h cs)
          = (Ok (fresh (dom h)), World (<[fresh (dom h) := settle v d]> h) (cs ++ tr))).
Proof.
  assert (Hhead : ∀ rec h cs d, h !! rec = Some d →
            resolve_location rec gaz (World h cs) =
            match provided_point d with
            | Raise e => (Raise e, World (<[fresh (dom h) := unlocated d]> h) cs)
            | Ok (Some (lat, lon)) =>
                (Ok (fresh (dom h)),
                 World (<[fresh (dom h) :=
                            located (unlocated d) lat lon (u "provided_point") f_1_0
                              (u "Coordinates provided in source data")]> h) cs)
            | Ok None =>
                match bbox_point d with
                | Raise e => (Raise e, World (<[fresh (dom h) := unlocated d]> h) cs)
                | Ok (Some (lat, lon)) =>
                    (Ok (fresh (dom h)),
                     World (<[fresh (dom h) :=
                                located (unlocated d) lat lon (u "bbox_centroid") f_0_8
                                  (u "Centroid of bounding box")]> h) cs)
                | Ok None =>
                    match signal_texts d with
                    | Raise e => (Raise e, World (<[fresh (dom h) := unlocated d]> h) cs)
                    | Ok (cc, cn, adm, cty, place) =>
                        resolve_tail (fresh (dom h)) gaz cc cn adm cty place
                          (World (<[fresh (dom h) := unlocated d]> h) cs)
                    end
                end
            end).
  { intros rec h cs d Hrec.
    assert (Hd : h !!! rec = d) by (by rewrite lookup_total_alt, Hrec).
    rewrite resolve_location_head. cbv zeta.
    by rewrite Hd, provided_point_unlocated, bbox_point_unlocated,
      signal_texts_unlocated. }
  destruct pp as [[[lat lon]|]|e].
  - exists []. right. exists (Located lat lon (u "provided_point") f_1_0
                               (u "Coordinates provided in source data")).
    split; [apply scored_1_0|]. intros rec h cs d Hrec Hp _ _.
    by rewrite (Hhead _ _ _ _ Hrec), Hp, app_nil_r.
  - destruct bp as [[[lat lon]|]|e].
    + exists []. right. exists (Located lat lon (u "bbox_centroid") f_0_8
                                 (u "Centroid of bounding box")).
      split; [apply scored_0_8|]. intros rec h cs d Hrec Hp Hb _.
      by rewrite (Hhead _ _ _ _ Hrec), Hp, Hb, app_nil_r.
    + destruct st as [[[[[cc cn] adm] cty] place]|e].
      * destruct (country_data_total gaz cc cn) as [cdo Hcd].
        pose proof (resolve_tail_uniform gaz cc cn adm cty place cdo Hcd) as Ht.
        destruct cdo as [cd|].
        -- destruct Ht as (later & _ & lat & lon & m & c & n & Hs & E).
           exists (country_calls gaz cc cn ++ later). right.
           exists (Located lat lon m c n). split; [done|].
           intros rec h cs d Hrec Hp Hb Hst.
           by rewrite (Hhead _ _ _ _ Hrec), Hp, Hb, Hst, E.
        -- exists (country_calls gaz cc cn). right. exists Unresolved. split; [done|].
           intros rec h cs d Hrec Hp Hb Hst.
           by rewrite (Hhead _ _ _ _ Hrec), Hp, Hb, Hst, Ht.
      * exists []. left. exists e. intros rec h cs d Hrec Hp Hb Hst.
        by rewrite (Hhead _ _ _ _ Hrec), Hp, Hb, Hst, app_nil_r.
    + exists []. left. exists e. intros rec h cs d Hrec Hp Hb _.
      by rewrite (Hhead _ _ _ _ Hrec), Hp, Hb, app_nil_r.
  - exists []. left. exists e. intros rec h cs d Hrec Hp _ _.
    by rewrite (Hhead _ _ _ _ Hrec), Hp, app_nil_r.
Qed.

Lemma provided_point_ext d1 d2 :
  d1 !! u "lat" = d2 !! u "lat" → d1 !! u "lon" = d2 !! u "lon" →
  provided_point d1 = provided_point d2.
Proof. unfold provided_point. by intros -> ->. Qed.

Lemma bbox_point_ext d1 d2 :
  d1 !! u "bbox" = d2 !! u "bbox" → bbox_point d1 = bbox_point d2.
Proof. unfold bbox_point. by intros ->. Qed.

Lemma signal_texts_ext d1 d2 :
  Forall (λ k, signal_text d1 k = signal_text d2 k) text_keys →
  signal_texts d1 = signal_texts d2.
Proof.
  unfold text_keys, signal_texts.
  intros H. repeat (apply Forall_cons in H as [-> H]). reflexivity.
Qed.

Lemma signal_text_ext d1 d2 k :
  d1 !! k = d2 !! k → signal_text d1 k = signal_text d2 k.
Proof. unfold signal_text. by intros ->. Qed.

(** A coordinate that is None or that [float()] refuses: tier 1 passes. *)
Lemma provided_point_rejected_lat d v :
  d !! u "lat" = Some v → rejected v → provided_point d = Ok None.
Proof.
  intros Hv Hr. unfold provided_point. rewrite Hv.
  cbn [default from_option id].
  destruct Hr as [-> | Hr]; [reflexivity|].
  destruct (negb (is_none v) && _); [|reflexivity].
  by destruct Hr as [-> | ->].
Qed.

Lemma provided_point_rejected_lon d v :
  (∀ vlat, d !! u "lat" = Some vlat → no_overflow vlat) →
  d !! u "lon" = Some v → rejected v → provided_point d = Ok None.
Proof.
  intros Hlat Hv Hr. unfold provided_point. rewrite Hv.
  cbn [default from_option id].
  destruct (d !! u "lat") as [vlat|]; cbn [default from_option id];
    [|reflexivity].
  specialize (Hlat _ eq_refl).
  destruct Hr as [-> | Hr]; [by rewrite andb_false_r|].
  destruct (negb (is_none vlat) && _); [|reflexivity].
  destruct (py_float vlat) as [la|e] eqn:E1; cbn [mbind result_bind].
  - by destruct Hr as [-> | ->].
  - destruct (py_float_raises _ _ E1) as [-> | [-> | ->]]; try reflexivity.
    by destruct Hlat.
Qed.

Lemma provided_point_absent d :
  d !! u "lat" = None ∨ d !! u "lon" = None → provided_point d = Ok None.
Proof.
  unfold provided_point. intros [-> | ->]; cbn [default from_option id is_none negb andb];
    [reflexivity|by rewrite andb_false_r].
Qed.

Lemma provided_point_out_of_range d vlat vlon lat lon :
  d !! u "lat" = Some vlat → d !! u "lon" = Some vlon →
  py_float vlat = Ok lat → py_float vlon = Ok lon →
  in_range lat lon = false → provided_point d = Ok None.
Proof.
  intros H1 H2 F1 F2 Hr. unfold provided_point. rewrite H1, H2.
  cbn [default from_option id]. destruct (_ && _); [|reflexivity].
  rewrite F1, F2. cbn [mbind result_bind]. by rewrite Hr.
Qed.

Lemma str_strip_nil : str_strip [] = [].
Proof. reflexivity. Qed.

(** Deleting a malformed field changes no decision. *)
Lemma malformed_delete d k :
  typed_signal d → malformed d k →
  provided_point (delete k d) = provided_point d ∧
  bbox_point (delete k d) = bbox_point d ∧
  signal_texts (delete k d) = signal_texts d.
Proof.
  intros (Hlat & Hlon & _ & _). unfold malformed.
  destruct (d !! k) as [v|] eqn:Hk; [|done].
  assert (Hother : ∀ k', k' ≠ k → delete k d !! k' = d !! k').
  { intros k' Hne. by rewrite lookup_delete_ne. }
  assert (Htexts : k ∉ text_keys → signal_texts (delete k d) = signal_texts d).
  { intros Hnot. apply signal_texts_ext, Forall_forall. intros k' Hin.
    apply signal_text_ext, Hother. intros ->. done. }
  assert (Hcoord : k = u "lat" ∨ k = u "lon" → provided_point d = Ok None →
            provided_point (delete k d) = provided_point d ∧
            bbox_point (delete k d) = bbox_point d ∧
            signal_texts (delete k d) = signal_texts d).
  { intros Hkk Hp. split; [|split].
    - rewrite Hp. apply provided_point_absent.
      destruct Hkk as [-> | ->]; [left|right]; apply lookup_delete_eq.
    - apply bbox_point_ext, Hother. destruct Hkk as [-> | ->]; key_ne.
    - apply Htexts. unfold text_keys. rewrite !not_elem_of_cons.
      destruct Hkk as [-> | ->]; repeat split; try key_ne; apply not_elem_of_nil. }
  intros [[Hkk Hr] | [[Hkk Hr] | [[-> Hb] | [Hin (s & -> & Hs)]]]].
  - apply Hcoord; [done|]. destruct Hkk as [-> | ->].
    + by eapply provided_point_rejected_lat.
    + by eapply provided_point_rejected_lon.
  - apply Hcoord; [done|].
    destruct Hr as (vlat & vlon & lat & lon & H1 & H2 & F1 & F2 & Hr).
    by eapply provided_point_out_of_range.
  - split; [|split].
    + apply provided_point_ext; apply Hother; key_ne.
    + unfold bbox_point. rewrite lookup_delete_eq, Hk. cbn [default from_option id].
      destruct Hb as [-> | Hb]; [reflexivity|]. rewrite Hb. by destruct (truthy v).
    + apply Htexts. unfold text_keys. rewrite !not_elem_of_cons.
      repeat split; try key_ne; apply not_elem_of_nil.
  - assert (Hne : k ≠ u "lat" ∧ k ≠ u "lon" ∧ k ≠ u "bbox").
    { unfold text_keys in Hin. rewrite !elem_of_cons in Hin.
      destruct Hin as [-> | [-> | [-> | [-> | [-> | Hin]]]]];
        [..|by apply elem_of_nil in Hin]; repeat split; key_ne. }
    destruct Hne as (N1 & N2 & N3). split; [|split].
    + apply provided_point_ext; apply Hother; congruence.
    + apply bbox_point_ext, Hother. congruence.
    + apply signal_texts_ext, Forall_forall. intros k' Hin'.
      destruct (decide (k' = k)) as [-> | Hne]; [|by apply signal_text_ext, Hother].
      unfold signal_text. rewrite lookup_delete_eq, Hk.
      cbn [default from_option id py_strip]. by rewrite Hs.
Qed.

Lemma signal_texts_raises d e : signal_texts d = Raise e → e = AttributeError.
Proof.
  unfold signal_texts, signal_text.
  repeat (match goal with
          | |- context [mbind _ (py_strip ?v)] =>
              let E := fresh "E" in
              destruct (py_strip v) eqn:E; cbn [mbind result_bind];
              [|destruct v; cbn in E; congruence]
          end).
  discriminate.
Qed.

Lemma signal_text_ok_inv d k s : signal_text d k = Ok s → text_field d k.
Proof.
  unfold signal_text, text_field.
  destruct (d !! k) as [[]|]; cbn; done.
Qed.

Lemma signal_texts_ok_inv d r :
  signal_texts d = Ok r → Forall (text_field d) text_keys.
Proof.
  unfold signal_texts, text_keys.
  repeat (match goal with
          | |- context [mbind _ (signal_text d ?k)] =>
              let E := fresh "E" in
              destruct (signal_text d k) eqn:E; cbn [mbind result_bind];
              [apply signal_text_ok_inv in E|discriminate]
          end).
  intros _. repeat (apply Forall_cons; split; [assumption|]). apply Forall_nil_2.
Qed.

(** A text field that is not a str, once tiers 1 and 2 are passed. *)
Lemma signal_texts_attribute_error d :
  Exists (λ k, ¬ text_field d k) text_keys → signal_texts d = Raise AttributeError.
Proof.
  intros Hex. destruct (signal_texts d) as [r|e] eqn:E.
  - apply signal_texts_ok_inv in E. apply Exists_exists in Hex as (k & Hin & Hk).
    rewrite Forall_forall in E. destruct (Hk (E k Hin)).
  - by apply signal_texts_raises in E as ->.
Qed.
End Decided.

(** C2, as the code has it.  On a record whose text fields are absent or
    strings, whose bounding box is falsy, a list, a str or a dict, and
    whose coordinates and box entries hold no int beyond the doubles:
    a run never raises and returns a record that is unresolved or
    located; and a malformed field counts as absent: with a coordinate
    that is None, that [float()] refuses or that is out of range, a
    bounding box without a centroid, or a text that is empty once
    stripped, the run makes the lookups and reaches the verdict it
    reaches on the record without that field.  Once tiers 1 and 2 are
    passed, a text field that is not a str makes the run raise
    AttributeError, before any lookup. *)
Theorem resolve_location_total `{rt : PyRuntime} :
  (∀ rec gaz w d,
     heap w !! rec = Some d → typed_signal d →
     ∃ a v tr,
       resolve_location rec gaz w
       = (Ok a, World (<[a := settle v d]> (heap w)) (calls w ++ tr)) ∧
       match v with Located _ _ _ c _ => scored c | Unresolved => True end) ∧
  (∀ gaz rec w rec' w' d k,
     heap w !! rec = Some d → heap w' !! rec' = Some (delete k d) →
     typed_signal d → malformed d k →
     ∃ a a' v tr,
       resolve_location rec gaz w
       = (Ok a, World (<[a := settle v d]> (heap w)) (calls w ++ tr)) ∧
       resolve_location rec' gaz w'
       = (Ok a', World (<[a' := settle v (delete k d)]> (heap w')) (calls w' ++ tr))) ∧
  (∀ rec gaz w d,
     heap w !! rec = Some d →
     provided_point d = Ok None → bbox_point d = Ok None →
     Exists (λ k, ¬ text_field d k) text_keys →
     (resolve_location rec gaz w).1 = Raise AttributeError ∧
     calls (resolve_location rec gaz w).2 = calls w).
Proof.
  assert (Htyped : ∀ (rec : positive) gaz (h : gmap positive (gmap str pyval))
                      (cs : list gaz_call) d,
            h !! rec = Some d → typed_signal d →
            ∃ v tr,
              match v with Located _ _ _ c _ => scored c | Unresolved => True end ∧
              ∀ (rec' : positive) (h' : gmap positive (gmap str pyval))
                (cs' : list gaz_call) d',
                h' !! rec' = Some d' →
                provided_point d' = provided_point d → bbox_point d' = bbox_point d →
                signal_texts d' = signal_texts d →
                resolve_location rec' gaz (World h' cs')
                = (Ok (fresh (dom h')),
                   World (<[fresh (dom h') := settle v d']> h') (cs' ++ tr))).
  { intros rec gaz h cs d Hrec Ht.
    destruct (typed_signal_no_raise d Ht) as ([r1 H1] & [r2 H2] & [r3 H3]).
    destruct (resolve_location_by_decisions gaz (provided_point d) (bbox_point d)
                (signal_texts d)) as (tr & [(e & E) | (v & Hv & E)]).
    - exfalso. specialize (E rec h cs d Hrec eq_refl eq_refl eq_refl).
      destruct (resolve_location_shape rec gaz h cs)
        as (tr' & [(e' & Hr & E') | [E' | (lat & lon & m & c & n & Hs & E')]]);
        [|congruence..].
      assert (Hd : h !!! rec = d) by (by rewrite lookup_total_alt, Hrec).
      rewrite Hd, provided_point_unlocated, bbox_point_unlocated,
        signal_texts_unlocated in Hr.
      destruct Hr as [Hr | [Hr | Hr]]; congruence.
    - exists v, tr. split; [done|]. intros rec' h' cs' d' Hrec' Hp Hb Hst.
      by apply E. }
  split; [|split].
  - intros rec gaz [h cs] d Hrec Ht. cbn [heap calls] in *.
    destruct (Htyped rec gaz h cs d Hrec Ht) as (v & tr & Hv & E).
    exists (fresh (dom h)), v, tr. split; [|done]. by apply E.
  - intros gaz rec [h cs] rec' [h' cs'] d k Hrec Hrec' Ht Hm. cbn [heap calls] in *.
    destruct (Htyped rec gaz h cs d Hrec Ht) as (v & tr & Hv & E).
    destruct (malformed_delete d k Ht Hm) as (Hp & Hb & Hst).
    exists (fresh (dom h)), (fresh (dom h')), v, tr. split; by apply E.
  - intros rec gaz [h cs] d Hrec Hp Hb Hex. cbn [heap calls] in *.
    assert (Hd : h !!! rec = d) by (by rewrite lookup_total_alt, Hrec).
    rewrite resolve_location_head. cbv zeta.
    rewrite Hd, provided_point_unlocated, bbox_point_unlocated,
      signal_texts_unlocated, Hp, Hb, (signal_texts_attribute_error d Hex).
    done.
Qed.

(** A record with unparsable coordinates, a box of the wrong length and an
    empty text field ends unresolved, as it does without its latitude. *)
Lemma resolve_location_total_witness :
  let d := list_to_map [(u "lat", VStr (u "north")); (u "lon", VInt 3);
                        (u "bbox", VList [VInt 1; VInt 2]); (u "city", VStr [])]
           : gmap str pyval in
  let w := World {[ 1%positive := d ]} [] in
  let w' := World {[ 1%positive := delete (u "lat") d ]} [] in
  ∃ a a' v tr,
    resolve_location (rt := ascii_rt) 1 sample_gaz w
    = (Ok a, World (<[a := settle v d]> (heap w)) (calls w ++ tr)) ∧
    resolve_location (rt := ascii_rt) 1 sample_gaz w'
    = (Ok a', World (<[a' := settle v (delete (u "lat") d)]> (heap w')) (calls w' ++ tr)).
Proof.
  intros d w w'.
  apply (proj1 (proj2 (resolve_location_total (rt := ascii_rt))) sample_gaz
           1%positive w 1%positive w' d (u "lat")).
  - vm_compute. reflexivity.
  - vm_compute. reflexivity.
  - repeat split.
    + intros v Hv. vm_compute in Hv. injection Hv as <-. vm_compute. discriminate.
    + intros v Hv. vm_compute in Hv. injection Hv as <-. vm_compute. discriminate.
    + intros v Hv. vm_compute in Hv. injection Hv as <-.
      repeat constructor; vm_compute; discriminate.
    + repeat constructor; vm_compute; exact I.
  - unfold malformed.
    assert (E : d !! u "lat" = Some (VStr (u "north"))) by (vm_compute; reflexivity).
    rewrite E. left. split; [by left|]. right; left. vm_compute. reflexivity.
Defined.

(** C2 fails as stated: a text field holding None, which has no [strip],
    makes the run raise AttributeError. *)
Lemma resolve_location_raises_on_null_text :
  (resolve_location (rt := ascii_rt) 1 sample_gaz
     (one_record [("country", VNone)])).1 = Raise AttributeError.
Proof. vm_compute. reflexivity. Qed.


(* --------------------------------------------------------------------- *)
(** ** The normalizer                                                     *)
(* --------------------------------------------------------------------- *)

(** C4, as the code has it.  [_normalize] returns a key for every str,
    whatever its characters, and the empty key for None, for the empty str
    and for any other falsy value; a truthy value that is not a str makes
    it raise TypeError. *)
Theorem normalize_total `{rt : PyRuntime} :
  (∀ s, ∃ k, Gazetteer._normalize (VStr s) = Ok k) ∧
  Gazetteer._normalize VNone = Ok [] ∧
  Gazetteer._normalize (VStr []) = Ok [] ∧
  (∀ v, truthy v = false → Gazetteer._normalize v = Ok []) ∧
  (∀ v, truthy v = true → (∀ s, v ≠ VStr s) →
        Gazetteer._normalize v = Raise TypeError).
Proof.
  split; [|split; [|split; [|split]]].
  - intros s. rewrite normalize_str. eauto.
  - reflexivity.
  - reflexivity.
  - intros v Hv. unfold Gazetteer._normalize. by rewrite Hv.
  - intros v Hv Hs. unfold Gazetteer._normalize. rewrite Hv. cbn [negb].
    destruct v; try reflexivity. by destruct (Hs s).
Qed.

(** C4 fails as stated: an int is an input, and a nonzero one raises. *)
Lemma normalize_raises_on_int :
  Gazetteer._normalize (rt := ascii_rt) (VInt 5) = Raise TypeError.
Proof. reflexivity. Qed.

(* --------------------------------------------------------------------- *)
(** ** Loading tables                                                     *)
(* --------------------------------------------------------------------- *)

(** A loader loop parses every row before it serves anything: it is the
    parse of all rows followed by the index updates. *)
Lemma foldM_parse {A B S} (f : S → A → result S) (parse : A → result B)
    (add : S → B → S) rows s :
  (∀ s r, f s r = x ← parse r; Ok (add s x)) →
  foldM f rows s = xs ← mapM parse rows; Ok (fold_left add xs s).
Proof.
  intros Hf. revert s. induction rows as [|r rows IH]; intros s; [reflexivity|].
  cbn [foldM mapM]. rewrite Hf.
  destruct (parse r) as [x|e]; cbn [mbind result_bind]; [|reflexivity].
  rewrite IH. destruct (mapM parse rows); reflexivity.
Qed.

Section Keys.
Context `{rt : PyRuntime}.

Lemma collapse_ws_elem s c : c ∈ Gazetteer.collapse_ws s → c = 32%N ∨ c ∈ s.
Proof.
  induction s as [|x s IH]; [by intros ?%elem_of_nil|].
  cbn [Gazetteer.collapse_ws]. destruct (isspace x).
  - destruct s as [|y s]; [rewrite list_elem_of_singleton; auto|].
    destruct (isspace y).
    + intros [?|?]%IH; [auto|right; by right].
    + rewrite elem_of_cons. intros [?|[?|?]%IH]; auto. right; by right.
  - rewrite elem_of_cons. intros [->|[?|?]%IH]; auto; right; [by left|by right].
Qed.

(** What survives normalization: a space, or a character the
    punctuation filter keeps. *)
Lemma normalize_text_elem s c :
  c ∈ Gazetteer.normalize_text s → c = 32%N ∨ Gazetteer.kept c = true.
Proof.
  unfold Gazetteer.normalize_text.
  intros [?|Hc%list_elem_of_filter]%collapse_ws_elem; [auto|right; tauto].
Qed.

Lemma normalize_no_colon v k :
  isword 58 = false → isspace 58 = false →
  Gazetteer._normalize v = Ok k → 58%N ∉ k.
Proof.
  intros Hw Hs. unfold Gazetteer._normalize.
  destruct (truthy v); cbn [negb]; [|intros [= <-]; apply not_elem_of_nil].
  destruct v; try discriminate. intros [= <-] [?|Hk]%normalize_text_elem; [done|].
  unfold Gazetteer.kept in Hk. rewrite Hw, Hs in Hk. discriminate.
Qed.

(** Splitting at the first colon is unambiguous. *)
Lemma app_colon_inj (a a' b b' : str) :
  58%N ∉ a → 58%N ∉ a' → a ++ colon ++ b = a' ++ colon ++ b' → a = a' ∧ b = b'.
Proof.
  revert a'. induction a as [|x a IH]; intros [|x' a'] Ha Ha'; cbn.
  - by intros [= ->].
  - intros [= <- _]. destruct Ha'. by left.
  - intros [= -> _]. destruct Ha. by left.
  - intros [= -> E]. destruct (IH a') as [-> ->]; try done.
    + intros ?. apply Ha. by right.
    + intros ?. apply Ha'. by right.
Qed.

(** A precise key has two colons after the country, an admin-agnostic key
    one: they never coincide. *)
Lemma precise_ne_agnostic (c c' na nc nc' : str) :
  58%N ∉ c → 58%N ∉ c' → 58%N ∉ nc' →
  c ++ colon ++ na ++ colon ++ nc ≠ c' ++ colon ++ nc'.
Proof.
  intros Hc Hc' Hn E. apply app_colon_inj in E as [_ <-]; [|done..].
  apply Hn. rewrite !elem_of_app. right; left. by apply list_elem_of_singleton.
Qed.

Lemma city_entry_keys row k kc e :
  Gazetteer.city_entry row = Ok (k, kc, e) →
  ∃ na nc,
    Gazetteer._normalize (cell_val (ci_admin1_name e)) = Ok na ∧
    Gazetteer._normalize (cell_val (ci_name e)) = Ok nc ∧
    k = ci_country_iso2 e ++ colon ++ na ++ colon ++ nc ∧
    kc = ci_country_iso2 e ++ colon ++ nc.
Proof.
  unfold Gazetteer.city_entry.
  repeat (match goal with
          | |- context [mbind _ ?m] =>
              let E := fresh "E" in destruct m eqn:E; cbn [mbind result_bind];
              [|discriminate]
          end).
  intros [= <- <- <-]. cbn [ci_admin1_name ci_name ci_country_iso2].
  eexists _, _. repeat split; eassumption.
Qed.
End Keys.

Section CityIndex.
Context `{rt : PyRuntime}.

Lemma cities_fold entries self :
  cities_by_key (fold_left Gazetteer.add_city entries self)
  = fold_left (λ m kke, Gazetteer.index_city kke.1.1 kke.1.2 kke.2 m) entries
      (cities_by_key self).
Proof.
  revert self. induction entries as [|x l IH]; intros self; [reflexivity|].
  cbn [fold_left]. by rewrite IH.
Qed.

(** The slot of an admin-agnostic key that no precise key collides with
    holds, at every point of the loop, a most populous entry among the rows
    seen so far with that key. *)
Lemma index_city_best (entries : list (str * str * city)) kc :
  (∀ k kc' e, (k, kc', e) ∈ entries → k ≠ kc) →
  match fold_left (λ m kke, Gazetteer.index_city kke.1.1 kke.1.2 kke.2 m) entries ∅
        !! kc with
  | None => ∀ k e, (k, kc, e) ∉ entries
  | Some best =>
      (∃ k, (k, kc, best) ∈ entries) ∧
      ∀ k e, (k, kc, e) ∈ entries → ci_pop e <= ci_pop best
  end.
Proof.
  induction entries as [|[[k1 kc1] e1] l IH] using rev_ind; intros Hne.
  - cbn. rewrite lookup_empty. intros k e. apply not_elem_of_nil.
  - rewrite fold_left_app. cbn [fold_left fst snd].
    assert (Hl : ∀ k kc' e, (k, kc', e) ∈ l → k ≠ kc).
    { intros k kc' e Hin. apply (Hne k kc' e). apply elem_of_app. by left. }
    assert (Hk1 : k1 ≠ kc).
    { apply (Hne k1 kc1 e1). apply elem_of_app. right. by apply list_elem_of_singleton. }
    specialize (IH Hl).
    set (m := fold_left _ l ∅) in *.
    unfold Gazetteer.index_city.
    destruct (decide (kc1 = kc)) as [->|Hkc].
    + rewrite (lookup_insert_ne _ k1 kc) by done.
      destruct (m !! kc) as [old|] eqn:Eold.
      * destruct IH as [[k0 Hin] Hmax].
        destruct (Z.gtb_spec (ci_pop e1) (ci_pop old)) as [Hgt|Hle].
        -- rewrite lookup_insert_eq. split.
           ++ exists k1. apply elem_of_app. right. by apply list_elem_of_singleton.
           ++ intros k e [Hin'|Hin'%list_elem_of_singleton]%elem_of_app.
              ** specialize (Hmax _ _ Hin'). lia.
              ** injection Hin' as -> ->. lia.
        -- rewrite (lookup_insert_ne _ k1 kc) by done. rewrite Eold. split.
           ++ exists k0. apply elem_of_app. by left.
           ++ intros k e [Hin'|Hin'%list_elem_of_singleton]%elem_of_app.
              ** by apply (Hmax k).
              ** injection Hin' as -> ->. lia.
      * rewrite lookup_insert_eq. split.
        -- exists k1. apply elem_of_app. right. by apply list_elem_of_singleton.
        -- intros k e [Hin'|Hin'%list_elem_of_singleton]%elem_of_app.
           ++ by destruct (IH k e).
           ++ injection Hin' as -> ->. lia.
    + assert (Hsame :
        match <[k1:=e1]> m !! kc1 with
        | Some old => if ci_pop e1 >? ci_pop old
                      then <[kc1:=e1]> (<[k1:=e1]> m) else <[k1:=e1]> m
        | None => <[kc1:=e1]> (<[k1:=e1]> m)
        end !! kc = m !! kc).
      { destruct (<[k1:=e1]> m !! kc1) as [old|];
          [destruct (ci_pop e1 >? ci_pop old)|];
          rewrite ?(lookup_insert_ne _ kc1 kc) by done;
          by rewrite (lookup_insert_ne _ k1 kc) by done. }
      rewrite Hsame. destruct (m !! kc) as [best|].
      * destruct IH as [[k0 Hin] Hmax]. split.
        -- exists k0. apply elem_of_app. by left.
        -- intros k e [Hin'|Hin'%list_elem_of_singleton]%elem_of_app.
           ++ by apply (Hmax k).
           ++ by injection Hin' as -> ->.
      * intros k e [Hin'|Hin'%list_elem_of_singleton]%elem_of_app.
        -- by destruct (IH k e).
        -- by injection Hin' as -> ->.
Qed.
End CityIndex.

(** C9. With an admin name, [find_city] answers with the entry under the
    precise (country, admin, city) key when there is one and with the one
    under the (country, city) key otherwise; and after loading the cities
    table, the (country, city) key of every row holds an entry of a row
    with that key whose population no row with that key exceeds.  Country
    codes are taken not to hold a colon, the separator of the keys, which
    the normalizer strips from names as punctuation. *)
Theorem find_city_prefers_precise_and_largest `{rt : PyRuntime} :
  (∀ gaz cc adm cty,
     cc ≠ [] → adm ≠ [] → cty ≠ [] →
     let code := str_strip (str_upper cc) in
     let precise := code ++ colon ++ Gazetteer.normalize_text adm ++ colon
                         ++ Gazetteer.normalize_text cty in
     let agnostic := code ++ colon ++ Gazetteer.normalize_text cty in
     Gazetteer.find_city gaz cc (Some adm) cty
     = Ok (match cities_by_key gaz !! precise with
           | Some c => Some c
           | None => cities_by_key gaz !! agnostic
           end)) ∧
  (isword 58 = false → isspace 58 = false →
   ∀ fs path rows self0 out self out',
     fs path = Some rows → cities_by_key self0 = ∅ →
     Gazetteer._load_cities fs path self0 out = Ok (self, out') →
     ∃ entries,
       mapM Gazetteer.city_entry rows = Ok entries ∧
       (Forall (λ kke, 58%N ∉ ci_country_iso2 kke.2) entries →
        ∀ k kc e, (k, kc, e) ∈ entries →
          ∃ best,
            cities_by_key self !! kc = Some best ∧
            (∃ k', (k', kc, best) ∈ entries) ∧
            ∀ k' e', (k', kc, e') ∈ entries → ci_pop e' <= ci_pop best)).
Proof.
  split.
  - intros gaz cc adm cty Hcc Hadm Hcty code precise agnostic.
    unfold Gazetteer.find_city.
    rewrite !bool_decide_eq_false_2 by done. cbn [orb cell_val].
    rewrite !normalize_str, !bool_decide_eq_false_2 by done.
    cbn [mbind result_bind]. rewrite (proj2 (truthy_str adm) Hadm).
    cbn [mbind result_bind]. fold code. fold precise. fold agnostic.
    by destruct (cities_by_key gaz !! precise).
  - intros Hw Hs fs path rows self0 out self out' Hfs Hempty.
    unfold Gazetteer._load_cities. rewrite Hfs.
    rewrite (foldM_parse _ Gazetteer.city_entry Gazetteer.add_city)
      by reflexivity.
    destruct (mapM Gazetteer.city_entry rows) as [entries|e] eqn:Em;
      cbn [mbind result_bind]; [|discriminate].
    intros [= <- _]. exists entries. split; [reflexivity|].
    intros Hcodes k kc e Hin.
    rewrite cities_fold, Hempty.
    assert (Hkeys : ∀ k kc e, (k, kc, e) ∈ entries →
              ∃ na nc, (58%N ∉ nc) ∧
                k = ci_country_iso2 e ++ colon ++ na ++ colon ++ nc ∧
                kc = ci_country_iso2 e ++ colon ++ nc).
    { clear -Em Hw Hs. revert entries Em.
      induction rows as [|r rows IH]; intros entries; cbn [mapM mbind result_bind].
      - intros [= <-] k kc e Hin. by apply elem_of_nil in Hin.
      - destruct (Gazetteer.city_entry r) as [[[k1 kc1] e1]|] eqn:Er;
          cbn [mbind result_bind]; [|discriminate].
        destruct (mapM Gazetteer.city_entry rows) as [l|]; [|discriminate].
        intros [= <-] k kc e [[= -> -> ->]|Hin]%elem_of_cons; [|by eapply IH].
        destruct (city_entry_keys _ _ _ _ Er) as (na & nc & _ & Hnc & -> & ->).
        exists na, nc. split; [by eapply normalize_no_colon|done]. }
    pose proof (index_city_best entries kc) as Hbest.
    destruct (Hkeys _ _ _ Hin) as (na & nc & Hnc & -> & ->).
    rewrite Forall_forall in Hcodes.
    destruct (fold_left _ entries ∅ !! (ci_country_iso2 e ++ colon ++ nc))
      as [best|] eqn:Eb.
    + exists best. split; [reflexivity|]. apply Hbest.
      intros k2 kc2 e2 Hin2.
      destruct (Hkeys _ _ _ Hin2) as (na2 & nc2 & _ & -> & _).
      apply precise_ne_agnostic; [apply (Hcodes _ Hin2)|apply (Hcodes _ Hin)|done].
    + exfalso. eapply Hbest; [|exact Hin].
      intros k2 kc2 e2 Hin2.
      destruct (Hkeys _ _ _ Hin2) as (na2 & nc2 & _ & -> & _).
      apply precise_ne_agnostic; [apply (Hcodes _ Hin2)|apply (Hcodes _ Hin)|done].
Qed.

(** On the sample tables: Springfield with the admin name Illinois is the
    Illinois one; the slot of (US, springfield) holds the Missouri one,
    the more populous of the two. *)
Lemma find_city_prefers_precise_and_largest_witness :
  (∃ c, Gazetteer.find_city (rt := ascii_rt) sample_gaz (u "US") (Some (u "Illinois"))
          (u "Springfield") = Ok (Some c) ∧ ci_pop c = 114394) ∧
  (∃ self best,
     Gazetteer._load_cities (rt := ascii_rt) sample_fs (u "geo/cities_light.csv")
       (Gaz ∅ ∅ ∅ ∅ ∅) [] = Ok (self, []) ∧
     cities_by_key self !! u "US:springfield" = Some best ∧
     169176 <= ci_pop best).
Proof.
  destruct (find_city_prefers_precise_and_largest (rt := ascii_rt)) as [Hfind Hload].
  split.
  - rewrite (Hfind sample_gaz (u "US") (u "Illinois") (u "Springfield"))
      by key_ne.
    eexists. split; vm_compute; reflexivity.
  - set (self := match Gazetteer._load_cities (rt := ascii_rt) sample_fs
                         (u "geo/cities_light.csv") (Gaz ∅ ∅ ∅ ∅ ∅) [] with
                 | Ok (g, _) => g
                 | Raise _ => Gaz ∅ ∅ ∅ ∅ ∅
                 end).
    assert (Hrun : Gazetteer._load_cities (rt := ascii_rt) sample_fs
                     (u "geo/cities_light.csv") (Gaz ∅ ∅ ∅ ∅ ∅) [] = Ok (self, []))
      by (vm_compute; reflexivity).
    destruct (Hload eq_refl eq_refl sample_fs (u "geo/cities_light.csv") sample_cities
                (Gaz ∅ ∅ ∅ ∅ ∅) [] self [] eq_refl eq_refl Hrun)
      as (entries & Hm & Hbest).
    vm_compute in Hm. injection Hm as <-.
    edestruct Hbest as (best & Hb & _ & Hmax).
    { apply (bool_decide_unpack _). vm_compute. exact I. }
    { apply list_elem_of_further, list_elem_of_further, list_elem_of_here. }
    exists self, best. split; [exact Hrun|]. split; [exact Hb|].
    eapply (Hmax _ (City _ _ _ _ _ 169176)).
    apply list_elem_of_further, list_elem_of_further, list_elem_of_here.
Defined.

(* --------------------------------------------------------------------- *)
(** ** Construction                                                       *)
(* --------------------------------------------------------------------- *)

Section Construction.
Context `{rt : PyRuntime}.



















End Construction.



